(** * Danmaku2ASS: lane allocation, colour conversion and rendering

    A shallow embedding of the layout and rendering engine of
    [danmaku2ass.py].  Python floats are idealised as exact rationals [Q]
    (or as reals, for the trigonometric projection); Python ints are [Z].
    The numbers of a comment are finite floats: a time, size, height or
    width that is an infinity or a NaN has no counterpart here.  The
    finite range of a float is modelled where a timestamp is converted:
    a product or sum whose exact value leaves the range is an infinity, on
    which [round] raises [OverflowError].
    Exceptions are values of an error type, [try]/[except] is a match on
    them. *)

From Stdlib Require Import ZArith QArith Qabs Qround List String Ascii Bool Lia Lqa.
From Stdlib Require Import Sorted DecimalString.
From Stdlib Require Import Reals Lra.
Import ListNotations.

#[local] Open Scope Z_scope.

(** ** Python values and exceptions *)

Module Py.

Inductive exn : Set :=
| IndexError
| ValueError
| TypeError
| ZeroDivisionError
| OverflowError.

Inductive result (A : Type) : Type :=
| Ok (a : A)
| Raise (e : exn).

Arguments Ok {A} a.
Arguments Raise {A} e.

Definition bind {A B : Type} (m : result A) (k : A -> result B) : result B :=
  match m with
  | Ok a => k a
  | Raise e => Raise e
  end.

(** [l[i]] with Python's negative indices. *)
Definition norm_index (len : nat) (i : Z) : option nat :=
  if 0 <=? i then
    if i <? Z.of_nat len then Some (Z.to_nat i) else None
  else
    if 0 <=? Z.of_nat len + i then Some (Z.to_nat (Z.of_nat len + i)) else None.

Definition getitem {A : Type} (l : list A) (i : Z) : result A :=
  match norm_index (List.length l) i with
  | Some n =>
      match nth_error l n with
      | Some a => Ok a
      | None => Raise IndexError
      end
  | None => Raise IndexError
  end.

Fixpoint set_nth {A : Type} (l : list A) (n : nat) (a : A) : list A :=
  match l, n with
  | [], _ => []
  | _ :: t, O => a :: t
  | h :: t, S n' => h :: set_nth t n' a
  end.

(** [l[i] = a] *)
Definition setitem {A : Type} (l : list A) (i : Z) (a : A) : result (list A) :=
  match norm_index (List.length l) i with
  | Some n => Ok (set_nth l n a)
  | None => Raise IndexError
  end.

(** True division [x / y] on floats. *)
Definition truediv (x y : Q) : result Q :=
  if Qeq_bool y 0 then Raise ZeroDivisionError else Ok (x / y)%Q.

(** [math.ceil] *)
Definition ceil (x : Q) : Z := Qceiling x.

(** [round(x)]: nearest integer, ties to even. *)
Definition round (x : Q) : Z :=
  let f := Qfloor x in
  match (x - inject_Z f ?= 1 # 2)%Q with
  | Lt => f
  | Gt => f + 1
  | Eq => if Z.even f then f else f + 1
  end.

(** [int(x)] on a float: truncation towards zero. *)
Definition trunc (x : Q) : Z :=
  if Qle_bool 0 x then Qfloor x else Qceiling x.

(** The largest double is [2^1024 - 2^971]; a result whose exact value has
    magnitude [2^1024 - 2^970] or more rounds to an infinity. *)
Definition float_limit : Q := inject_Z (2 ^ 1024 - 2 ^ 970).

(** The float result of an operation with exact value [x] is infinite. *)
Definition infinite (x : Q) : bool := Qle_bool float_limit (Qabs x).

(** A call [round(x)] on the float result of an operation with exact value
    [x]: [OverflowError] on an infinity. *)
Definition round_call (x : Q) : result Z :=
  if infinite x then Raise OverflowError else Ok (round x).

(** A call [int(x)], likewise. *)
Definition trunc_call (x : Q) : result Z :=
  if infinite x then Raise OverflowError else Ok (trunc x).

Definition Qltb (x y : Q) : bool := negb (Qle_bool y x).

End Py.

Import Py.

Notation "x <- m ;; k" := (Py.bind m (fun x => k))
  (at level 61, m at next level, right associativity).

(** ** Formatting helpers *)

Definition hex_digit (n : Z) : ascii :=
  match n with
  | 0 => "0" | 1 => "1" | 2 => "2" | 3 => "3" | 4 => "4"
  | 5 => "5" | 6 => "6" | 7 => "7" | 8 => "8" | 9 => "9"
  | 10 => "A" | 11 => "B" | 12 => "C" | 13 => "D" | 14 => "E"
  | _ => "F"
  end%char.

(** ["%02X" % n] for [0 <= n < 256]. *)
Definition hex2 (n : Z) : string :=
  String (hex_digit (n / 16)) (String (hex_digit (n mod 16)) EmptyString).

Definition hex6 (a b c : Z) : string :=
  (hex2 a ++ hex2 b ++ hex2 c)%string.

(** ** ConvertColor *)

Definition ClipByte (x : Q) : Z :=
  if Qltb 255 x then 255 else if Qltb x 0 then 0 else round x.

(** Decimal literal [n * 10^-17]. *)
Definition dec17 (n : Z) : Q := n # 100000000000000000.

Definition bt709_ch1 (R G B : Z) : Q :=
  (inject_Z R * dec17 956384088080656
   + inject_Z G * dec17 3217254540203729
   + inject_Z B * dec17 95826361371715607)%Q.

Definition bt709_ch2 (R G B : Z) : Q :=
  (inject_Z R * dec17 (-10493933142075390)
   + inject_Z G * dec17 117231478191855154
   + inject_Z B * dec17 (-6737545049779757))%Q.

Definition bt709_ch3 (R G B : Z) : Q :=
  (inject_Z R * dec17 91348912373987645
   + inject_Z G * dec17 7858536372532510
   + inject_Z B * dec17 792551253479842)%Q.

Definition chan_R (RGB : Z) : Z := Z.land (Z.shiftr RGB 16) 255.
Definition chan_G (RGB : Z) : Z := Z.land (Z.shiftr RGB 8) 255.
Definition chan_B (RGB : Z) : Z := Z.land RGB 255.

Definition ConvertColor (RGB width height : Z) : string :=
  if RGB =? 0 then "000000"%string
  else if RGB =? 16777215 then "FFFFFF"%string
  else
    let R := chan_R RGB in
    let G := chan_G RGB in
    let B := chan_B RGB in
    if (width <? 1280) && (height <? 576) then hex6 B G R
    else hex6 (ClipByte (bt709_ch1 R G B))
              (ClipByte (bt709_ch2 R G B))
              (ClipByte (bt709_ch3 R G B)).

(** The call [ConvertColor(RGB)] with the default resolution arguments. *)
Definition ConvertColor_default (RGB : Z) : string := ConvertColor RGB 1280 576.

(** ** Comment records

    The tuple yielded by the reader:
    [(timeline, timestamp, no, comment, pos, color, size, height, width)]. *)

Inductive Pos : Set :=
| PosInt (n : Z)
| PosStr (s : string).

Record Comment : Set := mkComment {
  c_timeline : Q;       (* c[0] *)
  c_timestamp : Z;      (* c[1] *)
  c_no : Z;             (* c[2] *)
  c_comment : string;   (* c[3] *)
  c_pos : Pos;          (* c[4] *)
  c_color : Z;          (* c[5] *)
  c_size : Q;           (* c[6] *)
  c_height : Q;         (* c[7] *)
  c_width : Q           (* c[8] *)
}.

Definition Pos_eqb (a b : Pos) : bool :=
  match a, b with
  | PosInt n, PosInt m => n =? m
  | PosStr s, PosStr t => String.eqb s t
  | _, _ => false
  end.

(** Tuple equality [a == b], field by field. *)
Definition Comment_eqb (a b : Comment) : bool :=
  Qeq_bool (c_timeline a) (c_timeline b)
  && (c_timestamp a =? c_timestamp b)
  && (c_no a =? c_no b)
  && String.eqb (c_comment a) (c_comment b)
  && Pos_eqb (c_pos a) (c_pos b)
  && (c_color a =? c_color b)
  && Qeq_bool (c_size a) (c_size b)
  && Qeq_bool (c_height a) (c_height b)
  && Qeq_bool (c_width a) (c_width b).

Definition Cell : Set := option Comment.

Definition Cell_eqb (a b : Cell) : bool :=
  match a, b with
  | None, None => true
  | Some x, Some y => Comment_eqb x y
  | _, _ => false
  end.

(** The lane grid [rows]: one list of cells per mode. *)
Definition Rows : Set := list (list Cell).

(** [rows = [[None] * (height - bottomReserved + 1) for i in range(4)]] *)
Definition new_rows (height bottomReserved : Z) : Rows :=
  repeat (repeat (@None Comment) (Z.to_nat (height - bottomReserved + 1))) 4.

(** [rows[c[4]]] *)
Definition lane_of (rows : Rows) (c : Comment) : result (list Cell) :=
  match c_pos c with
  | PosInt m => getitem rows m
  | PosStr _ => Raise TypeError
  end.

(** ** TestFreeRows *)

(** [c[4] in (1, 2)] *)
Definition is_still (c : Comment) : bool :=
  match c_pos c with
  | PosInt m => (m =? 1) || (m =? 2)
  | PosStr _ => false
  end.

(** [targetRow[0] + duration_still > c[0]] *)
Definition still_blocks (duration_still : Q) (c o : Comment) : bool :=
  Qltb (c_timeline c) (c_timeline o + duration_still).

(** [thresholdTime], with its [except ZeroDivisionError] fallback. *)
Definition thresholdTime (width : Z) (duration_marquee : Q) (c : Comment) : Q :=
  match truediv (inject_Z width) (c_width c + inject_Z width) with
  | Ok q => (c_timeline c - duration_marquee * (1 - q))%Q
  | Raise _ => (c_timeline c - duration_marquee)%Q
  end.

(** The condition of the marquee [if], which may divide by zero. *)
Definition marquee_cond (width : Z) (duration_marquee : Q) (c o : Comment)
  : result bool :=
  if Qltb (thresholdTime width duration_marquee c) (c_timeline o) then Ok true
  else
    q <- truediv (c_width o * duration_marquee) (c_width o + inject_Z width) ;;
    Ok (Qltb (c_timeline c) (c_timeline o + q)).

(** The [try: if ...: break / except ZeroDivisionError: pass] statement:
    [true] when the loop is left. *)
Definition marquee_blocks (width : Z) (duration_marquee : Q) (c o : Comment)
  : bool :=
  match marquee_cond width duration_marquee c o with
  | Ok b => b
  | Raise _ => false
  end.

(** The [while row < rowmax and res < c[7]] loop, shared by both branches;
    [blocks] is the branch's test on a newly seen occupant. *)
Fixpoint free_rows_loop (blocks : Comment -> bool) (rows : Rows) (c : Comment)
    (rowmax : Z) (fuel : nat) (row res : Z) (targetRow : Cell) : result Z :=
  match fuel with
  | O => Ok res
  | S fuel' =>
      if (row <? rowmax) && Qltb (inject_Z res) (c_height c) then
        lane <- lane_of rows c ;;
        cell <- getitem lane row ;;
        if Cell_eqb targetRow cell then
          free_rows_loop blocks rows c rowmax fuel' (row + 1) (res + 1) targetRow
        else
          match cell with
          | Some o =>
              if blocks o then Ok res
              else free_rows_loop blocks rows c rowmax fuel' (row + 1) (res + 1) cell
          | None =>
              free_rows_loop blocks rows c rowmax fuel' (row + 1) (res + 1) cell
          end
      else Ok res
  end.

Definition TestFreeRows (rows : Rows) (c : Comment) (row width height
    bottomReserved : Z) (duration_marquee duration_still : Q) : result Z :=
  let rowmax := height - bottomReserved in
  let blocks :=
    if is_still c then still_blocks duration_still c
    else marquee_blocks width duration_marquee c in
  free_rows_loop blocks rows c rowmax (Z.to_nat (rowmax - row)) row 0 None.

(** ** FindAlternativeRow *)

Fixpoint alternative_loop (rows : Rows) (c : Comment) (n : nat) (row res : Z)
  : result Z :=
  match n with
  | O => Ok res
  | S n' =>
      lane <- lane_of rows c ;;
      cell <- getitem lane row ;;
      match cell with
      | None => Ok row
      | Some o =>
          cur <- getitem lane res ;;
          match cur with
          | None => Raise TypeError
          | Some r =>
              if Qltb (c_timeline o) (c_timeline r)
              then alternative_loop rows c n' (row + 1) row
              else alternative_loop rows c n' (row + 1) res
          end
      end
  end.

Definition FindAlternativeRow (rows : Rows) (c : Comment)
    (height bottomReserved : Z) : result Z :=
  alternative_loop rows c
    (Z.to_nat (height - bottomReserved - ceil (c_height c))) 0 0.

(** ** MarkCommentRow *)

(** [rows[c[4]][i] = c] *)
Definition mark_cell (rows : Rows) (c : Comment) (i : Z) : result Rows :=
  match c_pos c with
  | PosInt m =>
      lane <- getitem rows m ;;
      lane' <- setitem lane i (Some c) ;;
      setitem rows m lane'
  | PosStr _ => Raise TypeError
  end.

Fixpoint mark_loop (rows : Rows) (c : Comment) (n : nat) (i : Z) : result Rows :=
  match n with
  | O => Ok rows
  | S n' =>
      match mark_cell rows c i with
      | Ok rows' => mark_loop rows' c n' (i + 1)
      | Raise IndexError => Ok rows
      | Raise e => Raise e
      end
  end.

Definition MarkCommentRow (rows : Rows) (c : Comment) (row : Z) : result Rows :=
  mark_loop rows c (Z.to_nat (ceil (c_height c))) row.

(** ** Output lines *)

(** [ConvertTimestamp]: hours, minutes, seconds, centiseconds of the
    ["%d:%02d:%02d.%02d"] field it returns.  These are the fields of a call
    that returns; [ConvertTimestamp_call] below tells when it does. *)
Definition ConvertTimestamp (timestamp : Q) : Z * Z * Z * Z :=
  let ts := round (timestamp * 100) in
  let hour := ts / 360000 in
  let minute := ts mod 360000 in
  let second := minute mod 6000 in
  let minute := minute / 6000 in
  let centsecond := second mod 100 in
  let second := second / 100 in
  (hour, minute, second, centsecond).

(** A call of [ConvertTimestamp]: [round(timestamp * 100.0)] raises
    [OverflowError] when the product is infinite, which is also the case
    when [timestamp] itself, a sum, already is. *)
Definition ConvertTimestamp_call (timestamp : Q) : result (Z * Z * Z * Z) :=
  _ <- round_call (timestamp * 100) ;;
  Ok (ConvertTimestamp timestamp).

(** [ConvertType2] *)
Definition ConvertType2 (row height bottomReserved : Z) : Z :=
  height - bottomReserved - row.

(** The override tags appended to [styles], with their formatted arguments. *)
Inductive Style : Set :=
| An8Pos (halfwidth row : Z)
| An2Pos (halfwidth row : Z)
| Move4 (x1 y1 x2 y2 : Z)
| Org (x y : Z)
| Pos2 (x y : Z)
| Move6 (x1 y1 x2 y2 t1 t2 : Z)
| Rot (frx fry frz fscx fscy : Z)
| Transform (t1 t2 : Z) (frx fry frz fscx fscy : Z)
| Fn (face : string)
| Fs (size : Z)
| Colour (bgr : string)
| OutlineWhite
| Alpha (a : Z)
| FadIn (ms : Z)
| FadOut (ms : Z)
| Fade (a1 a2 : Z) (t : Z)
| Bord0.

(** One [Dialogue:] line. *)
Record Event : Set := mkEvent {
  ev_layer : Z;
  ev_start : Z * Z * Z * Z;
  ev_end : Z * Z * Z * Z;
  ev_styles : list Style;
  ev_text : string
}.

Definition is_Colour (s : Style) : bool :=
  match s with
  | Colour _ => true
  | _ => false
  end.

(** ** ASSEscape *)

Definition nl : ascii := ascii_of_nat 10.
Definition figure_space : string :=
  String (ascii_of_nat 226) (String (ascii_of_nat 128)
    (String (ascii_of_nat 135) EmptyString)).

(** [s.replace(c, r)] for a single character [c]. *)
Fixpoint replace_char (c : ascii) (r : string) (s : string) : string :=
  match s with
  | EmptyString => EmptyString
  | String a t =>
      if Ascii.eqb a c then (r ++ replace_char c r t)%string
      else String a (replace_char c r t)
  end.

(** [s.split("\n")] *)
Fixpoint split_char (c : ascii) (s : string) : list string :=
  match s with
  | EmptyString => [EmptyString]
  | String a t =>
      if Ascii.eqb a c then EmptyString :: split_char c t
      else
        match split_char c t with
        | h :: r => String a h :: r
        | [] => [String a EmptyString]
        end
  end.

(** [s.lstrip(" ")] *)
Fixpoint lstrip (s : string) : string :=
  match s with
  | String a t => if Ascii.eqb a " " then lstrip t else s
  | EmptyString => EmptyString
  end.

Fixpoint string_rev_acc (s acc : string) : string :=
  match s with
  | EmptyString => acc
  | String a t => string_rev_acc t (String a acc)
  end.

Definition string_rev (s : string) : string := string_rev_acc s EmptyString.

(** [s.rstrip(" ")] *)
Definition rstrip (s : string) : string := string_rev (lstrip (string_rev s)).

Fixpoint string_repeat (s : string) (n : nat) : string :=
  match n with
  | O => EmptyString
  | S n' => (s ++ string_repeat s n')%string
  end.

Definition ReplaceLeadingSpace (s : string) : string :=
  let sstrip := lstrip (rstrip s) in
  let slen := String.length s in
  if Nat.eqb slen (String.length sstrip) then s
  else
    let llen := (slen - String.length (lstrip s))%nat in
    let rlen := (slen - String.length (rstrip s))%nat in
    (string_repeat figure_space llen ++ sstrip
       ++ string_repeat figure_space rlen)%string.

Definition ASSEscape (s : string) : string :=
  String.concat "\N"
    (map (fun i =>
            let r := ReplaceLeadingSpace i in
            if String.eqb r "" then " "%string else r)
       (split_char nl
          (replace_char "}" "\}"
             (replace_char "{" "\{"
                (replace_char "\" "\\" s))))).

(** ** WriteComment *)

(** [c[4] == n] *)
Definition pos_is (c : Comment) (n : Z) : bool :=
  match c_pos c with
  | PosInt m => m =? n
  | PosStr _ => false
  end.

(** The colour tags both writers append:
    [if c[5] != 0xFFFFFF: ... ConvertColor(c[5]) ...
       if c[5] == 0x000000: ...]. *)
Definition colour_styles (c : Comment) : list Style :=
  if c_color c =? 16777215 then []
  else Colour (ConvertColor_default (c_color c))
         :: (if c_color c =? 0 then [OutlineWhite] else []).

(** The positioning tag and the duration chosen with it. *)
Definition position_style (c : Comment) (row width height bottomReserved : Z)
    (duration_marquee duration_still : Q) : Style * Q :=
  let halfwidth := trunc (inject_Z width / 2) in
  let neglen := - ceil (c_width c) in
  if pos_is c 1 then (An8Pos halfwidth row, duration_still)
  else if pos_is c 2 then
    (An2Pos halfwidth (ConvertType2 row height bottomReserved), duration_still)
  else if pos_is c 3 then (Move4 neglen row width row, duration_marquee)
  else (Move4 width row neglen row, duration_marquee).

(** The line [WriteComment] writes when both timestamps convert. *)
Definition WriteComment (c : Comment) (row width height bottomReserved : Z)
    (fontsize duration_marquee duration_still : Q) : Event :=
  let text := ASSEscape (c_comment c) in
  let '(style, duration) :=
    position_style c row width height bottomReserved
      duration_marquee duration_still in
  let styles :=
    [style]
    ++ (if Qltb (-1) (c_size c - fontsize) && Qltb (c_size c - fontsize) 1
        then [] else [Fs (round (c_size c))])
    ++ colour_styles c in
  {| ev_layer := 2;
     ev_start := ConvertTimestamp (c_timeline c);
     ev_end := ConvertTimestamp (c_timeline c + duration);
     ev_styles := styles;
     ev_text := text |}.

(** A call of [WriteComment]: the styles are built first, then the line is
    formatted, with [ConvertTimestamp(c[0])] and
    [ConvertTimestamp(c[0] + duration)]; either may raise, and then nothing
    is written. *)
Definition WriteComment_call (c : Comment) (row width height bottomReserved : Z)
    (fontsize duration_marquee duration_still : Q) : result Event :=
  let '(_, duration) :=
    position_style c row width height bottomReserved
      duration_marquee duration_still in
  _ <- ConvertTimestamp_call (c_timeline c) ;;
  _ <- ConvertTimestamp_call (c_timeline c + duration) ;;
  Ok (WriteComment c row width height bottomReserved fontsize
        duration_marquee duration_still).

(** ** Positioned comments *)

(** Values returned by [json.loads]. *)
#[warnings="-register-all"]
Inductive json : Set :=
| JNull
| JBool (b : bool)
| JInt (n : Z)
| JFloat (q : Q)
| JStr (s : string)
| JList (l : list json)
| JDict (keys : list string) (vals : list json).

(** [list(x)], the constructor behind [safe_list]. *)
Definition safe_list (x : json) : result (list json) :=
  match x with
  | JList l => Ok l
  | JDict keys _ => Ok (map JStr keys)
  | JStr s => Ok (map (fun a => JStr (String a EmptyString)) (list_ascii_of_string s))
  | JNull | JBool _ | JInt _ | JFloat _ => Raise TypeError
  end.

(** [safe_list.get(index, default)] for a non-negative literal index. *)
Definition safe_get {A : Type} (l : list A) (index : nat) (default : A) : A :=
  match nth_error l index with
  | Some a => a
  | None => default
  end.

(** Truth value of a decoded value. *)
Definition truthy (x : json) : bool :=
  match x with
  | JNull => false
  | JBool b => b
  | JInt n => negb (n =? 0)
  | JFloat q => negb (Qeq_bool q 0)
  | JStr s => negb (String.eqb s "")
  | JList l => match l with [] => false | _ => true end
  | JDict keys _ => match keys with [] => false | _ => true end
  end.

(** [s.replace("/n", "\n")] *)
Fixpoint replace_slash_n (s : string) : string :=
  match s with
  | String "/" (String "n" t) => String nl (replace_slash_n t)
  | String a t => String a (replace_slash_n t)
  | EmptyString => EmptyString
  end.

(** [(f, dx, dy)] of [GetZoomFactor]; the cache only stores this result. *)
Definition GetZoomFactor (SourceSize TargetSize : Z * Z) : Q * Q * Q :=
  let s0 := inject_Z (fst SourceSize) in
  let s1 := inject_Z (snd SourceSize) in
  let t0 := inject_Z (fst TargetSize) in
  let t1 := inject_Z (snd TargetSize) in
  match
    (SourceAspect <- truediv s0 s1 ;;
     TargetAspect <- truediv t0 t1 ;;
     if Qltb TargetAspect SourceAspect then
       ScaleFactor <- truediv t0 s0 ;;
       q <- truediv t0 SourceAspect ;;
       Ok (ScaleFactor, 0%Q, ((t1 - q) / 2)%Q)
     else if Qltb SourceAspect TargetAspect then
       ScaleFactor <- truediv t1 s1 ;;
       Ok (ScaleFactor, ((t0 - t1 * SourceAspect) / 2)%Q, 0%Q)
     else
       ScaleFactor <- truediv t0 s0 ;;
       Ok (ScaleFactor, 0%Q, 0%Q))
  with
  | Ok r => r
  | Raise _ => (1%Q, 0%Q, 0%Q)
  end.

Definition BiliPlayerSize : Z * Z := (672, 438).

(** The 7-tuple returned by [ConvertFlashRotation]. *)
Record RotArg : Set := mkRotArg {
  trX : Q; trY : Q; outX : Q; outY : Q; outZ : Q; scaleX : Q; scaleY : Q
}.

Section Positioned.

(** Library functions the writer calls; [None] stands for [ValueError].
    The payload is taken to nest within the decoder's recursion limit and
    its numbers to be finite floats and ints within the range of a float;
    what the source does beyond (a [RecursionError] of the decoder, an
    infinity read from the payload, an int too large for a float) is
    outside this model.  Within it, [round] and [int] raise
    [OverflowError] on a product that leaves the range of a float. *)
Variable json_loads : string -> option json.
Variable py_str : json -> string.
Variable int_of_str : string -> option Z.
Variable float_of_str : string -> option Q.
(** Floating-point evaluation of [ConvertFlashRotation]; its real-valued
    model is [FlashRotation.ConvertFlashRotation] below. *)
Variable flash : Z -> Z -> Q -> Q -> Z -> Z -> RotArg.

(** [int(x)] *)
Definition py_int (x : json) : result Z :=
  match x with
  | JInt n => Ok n
  | JBool b => Ok (if b then 1 else 0)
  | JFloat q => trunc_call q
  | JStr s => match int_of_str s with Some n => Ok n | None => Raise ValueError end
  | JNull | JList _ | JDict _ _ => Raise TypeError
  end.

(** [float(x)] *)
Definition py_float (x : json) : result Q :=
  match x with
  | JInt n => Ok (inject_Z n)
  | JBool b => Ok (if b then 1%Q else 0%Q)
  | JFloat q => Ok q
  | JStr s => match float_of_str s with Some q => Ok q | None => Raise ValueError end
  | JNull | JList _ | JDict _ _ => Raise TypeError
  end.

Definition zoom_offset (ZoomFactor : Q * Q * Q) (isHeight : bool) : Q :=
  let '(_, dx, dy) := ZoomFactor in if isHeight then dy else dx.

Definition zoom_scale (ZoomFactor : Q * Q * Q) : Q :=
  let '(f, _, _) := ZoomFactor in f.

Definition GetPosition_int (ZoomFactor : Q * Q * Q) (n : Z) (isHeight : bool) : Q :=
  (zoom_scale ZoomFactor * inject_Z n + zoom_offset ZoomFactor isHeight)%Q.

Definition GetPosition_float (ZoomFactor : Q * Q * Q) (q : Q) (isHeight : bool) : Q :=
  if Qltb 1 q then
    (zoom_scale ZoomFactor * q + zoom_offset ZoomFactor isHeight)%Q
  else
    (inject_Z (if isHeight then snd BiliPlayerSize else fst BiliPlayerSize)
     * zoom_scale ZoomFactor * q + zoom_offset ZoomFactor isHeight)%Q.

Definition GetPosition (ZoomFactor : Q * Q * Q) (InputPos : json)
    (isHeight : bool) : result Q :=
  match InputPos with
  | JInt n => Ok (GetPosition_int ZoomFactor n isHeight)
  | JBool b => Ok (GetPosition_int ZoomFactor (if b then 1 else 0) isHeight)
  | JFloat q => Ok (GetPosition_float ZoomFactor q isHeight)
  | JStr s =>
      match int_of_str s with
      | Some n => Ok (GetPosition_int ZoomFactor n isHeight)
      | None =>
          match float_of_str s with
          | Some q => Ok (GetPosition_float ZoomFactor q isHeight)
          | None => Raise ValueError
          end
      end
  | JNull | JList _ | JDict _ _ => Raise TypeError
  end.

Definition rot_tags (r : RotArg) : Z * Z * Z * Z * Z :=
  (round (outX r), round (outY r), round (outZ r),
   round (scaleX r), round (scaleY r)).

(** The tags appended to [styles], in order. *)
Definition positioned_styles (c : Comment) (width height : Z)
    (ZoomFactor : Q * Q * Q) (from_rotarg to_rotarg : RotArg)
    (from_x from_y to_x to_y : Q) (from_alpha to_alpha : Z) (lifetime : Q)
    (duration delay : Z) (fontface isborder : json) : list Style :=
  [Org (trunc (inject_Z width / 2)) (trunc (inject_Z height / 2))]
  ++ [if Qeq_bool (trX from_rotarg) (trX to_rotarg)
         && Qeq_bool (trY from_rotarg) (trY to_rotarg)
      then Pos2 (round (trX from_rotarg)) (round (trY from_rotarg))
      else Move6 (round (trX from_rotarg)) (round (trY from_rotarg))
                 (round (trX to_rotarg)) (round (trY to_rotarg))
                 delay (delay + duration)]
  ++ [let '(a, b, d, e, g) := rot_tags from_rotarg in Rot a b d e g]
  ++ (if Qeq_bool from_x to_x && Qeq_bool from_y to_y then []
      else [let '(a, b, d, e, g) := rot_tags to_rotarg in
            Transform delay (delay + duration) a b d e g])
  ++ (if truthy fontface then [Fn (ASSEscape (py_str fontface))] else [])
  ++ [Fs (round (c_size c * zoom_scale ZoomFactor))]
  ++ colour_styles c
  ++ [if from_alpha =? to_alpha then Alpha from_alpha
      else if (from_alpha =? 255) && (to_alpha =? 0)
      then FadIn (round (lifetime * 1000))
      else if (from_alpha =? 0) && (to_alpha =? 255)
      then FadOut (round (lifetime * 1000))
      else Fade from_alpha to_alpha (round (lifetime * 1000))]
  ++ (match isborder with
      | JStr s => if String.eqb s "false" then [Bord0] else []
      | _ => []
      end).

(** The body of the [try] block: the line to write, or the exception. *)
Definition positioned_try (c : Comment) (width height : Z) : result Event :=
  let ZoomFactor := GetZoomFactor BiliPlayerSize (width, height) in
  loaded <- match json_loads (c_comment c) with
            | Some v => Ok v
            | None => Raise ValueError
            end ;;
  comment_args <- safe_list loaded ;;
  arg4 <- getitem comment_args 4 ;;
  let text := ASSEscape (replace_slash_n (py_str arg4)) in
  let from_x := safe_get comment_args 0 (JInt 0) in
  let from_y := safe_get comment_args 1 (JInt 0) in
  let to_x := safe_get comment_args 7 from_x in
  let to_y := safe_get comment_args 8 from_y in
  from_x <- GetPosition ZoomFactor from_x false ;;
  from_y <- GetPosition ZoomFactor from_y true ;;
  to_x <- GetPosition ZoomFactor to_x false ;;
  to_y <- GetPosition ZoomFactor to_y true ;;
  let alpha := split_char "-" (py_str (safe_get comment_args 2 (JStr "1"))) in
  from_alpha <- py_float (safe_get (map JStr alpha) 0 (JInt 1)) ;;
  to_alpha <- py_float (safe_get (map JStr alpha) 1 (JFloat from_alpha)) ;;
  from_round <- round_call (from_alpha * 255) ;;
  let from_alpha := 255 - from_round in
  to_round <- round_call (to_alpha * 255) ;;
  let to_alpha := 255 - to_round in
  rotate_z <- py_int (safe_get comment_args 5 (JInt 0)) ;;
  rotate_y <- py_int (safe_get comment_args 6 (JInt 0)) ;;
  lifetime <- py_float (safe_get comment_args 3 (JInt 4500)) ;;
  duration <- py_int (safe_get comment_args 9 (JFloat (lifetime * 1000))) ;;
  delay <- py_int (safe_get comment_args 10 (JInt 0)) ;;
  let fontface := safe_get comment_args 12 JNull in
  let isborder := safe_get comment_args 11 (JStr "true") in
  let from_rotarg := flash rotate_y rotate_z from_x from_y width height in
  let to_rotarg := flash rotate_y rotate_z to_x to_y width height in
  let styles :=
    positioned_styles c width height ZoomFactor from_rotarg to_rotarg
      from_x from_y to_x to_y from_alpha to_alpha lifetime duration delay
      fontface isborder in
  start <- ConvertTimestamp_call (c_timeline c) ;;
  end_ <- ConvertTimestamp_call (c_timeline c + lifetime) ;;
  Ok {| ev_layer := -1;
        ev_start := start;
        ev_end := end_;
        ev_styles := styles;
        ev_text := text |}.

(** What one call leaves behind: a line, or a logged warning. *)
Inductive Written : Set :=
| Line (ev : Event)
| Warning (text : string).

(** [try: ... except (IndexError, ValueError): logging.warning(...)];
    any other exception leaves the function. *)
Definition WriteCommentBilibiliPositioned (c : Comment) (width height : Z)
  : result Written :=
  match positioned_try c width height with
  | Ok ev => Ok (Line ev)
  | Raise IndexError | Raise ValueError => Ok (Warning (c_comment c))
  | Raise e => Raise e
  end.


(** ** ProcessComments

    The run is modelled from the creation of the grid on.  The header
    written by [WriteASSHead], the random style name and the progress
    callback have no influence on the lines or on the grid and are left
    out. *)

(** What the run leaves behind for one comment: the [WriteComment] call
    with its arguments and line, the positioned writer's line or warning,
    or the warning of the last [else].  [forced] tells the call in the
    [else] clause of the [while] loop (after [FindAlternativeRow]) from the
    call inside the loop. *)
Inductive Out : Set :=
| OutComment (c : Comment) (row : Z) (forced : bool) (ev : Event)
| OutPositioned (c : Comment) (w : Written)
| OutInvalid (c : Comment).

Definition is_line (o : Out) : bool :=
  match o with
  | OutComment _ _ _ _ => true
  | OutPositioned _ (Line _) => true
  | OutPositioned _ (Warning _) => false
  | OutInvalid _ => false
  end.

(** Number of [Dialogue] lines written. *)
Definition count_lines (out : list Out) : nat :=
  List.length (filter is_line out).

Section Stage.

Variables (width height bottomReserved : Z).
Variables (fontsize duration_marquee duration_still : Q).
(** [filters_regex], each compiled pattern seen through its [search]. *)
Variable filters_regex : list (string -> bool).
Variable reduced : bool.

(** The [while row <= rowmax] loop: [Some row] when it breaks after a
    placement, [None] when its [else] clause is reached. *)
Fixpoint find_row_loop (rows : Rows) (c : Comment) (fuel : nat) (row : Z)
  : result (option Z) :=
  match fuel with
  | O => Ok None
  | S fuel' =>
      let rowmax := (inject_Z (height - bottomReserved) - c_height c)%Q in
      if Qle_bool (inject_Z row) rowmax then
        freerows <- TestFreeRows rows c row width height bottomReserved
                      duration_marquee duration_still ;;
        if Qle_bool (c_height c) (inject_Z freerows) then Ok (Some row)
        else find_row_loop rows c fuel'
               (row + (if freerows =? 0 then 1 else freerows))
      else Ok None
  end.

Definition find_row (rows : Rows) (c : Comment) : result (option Z) :=
  let rowmax := (inject_Z (height - bottomReserved) - c_height c)%Q in
  find_row_loop rows c (Z.to_nat (Qfloor rowmax + 1)) 0.

(** [MarkCommentRow(rows, c, row)] followed by [WriteComment(...)]: the
    grid as the calls leave it, and the entry written or the exception.
    The grid is marked before the line is formatted, so it stays marked
    when [WriteComment] raises. *)
Definition write_at (rows : Rows) (c : Comment) (row : Z) (forced : bool)
  : Rows * result (list Out) :=
  match MarkCommentRow rows c row with
  | Ok rows' =>
      (rows',
       ev <- WriteComment_call c row width height bottomReserved fontsize
               duration_marquee duration_still ;;
       Ok [OutComment c row forced ev])
  | Raise e => (rows, Raise e)
  end.

(** The body of the [for] loop: the grid after it, and what it wrote or
    the exception that left it. *)
Definition process_comment (rows : Rows) (i : Comment)
  : Rows * result (list Out) :=
  match c_pos i with
  | PosInt _ =>
      if existsb (fun filter_regex => filter_regex (c_comment i)) filters_regex
      then (rows, Ok [])
      else
        match find_row rows i with
        | Ok (Some row) => write_at rows i row false
        | Ok None =>
            if negb reduced then
              match FindAlternativeRow rows i height bottomReserved with
              | Ok row => write_at rows i row true
              | Raise e => (rows, Raise e)
              end
            else (rows, Ok [])
        | Raise e => (rows, Raise e)
        end
  | PosStr s =>
      if String.eqb s "bilipos" then
        (rows,
         w <- WriteCommentBilibiliPositioned i width height ;;
         Ok [OutPositioned i w])
      else (rows, Ok [OutInvalid i])
  end.

(** State of a run: the grid, what was written so far, and the
    exception that ended it, if any. *)
Record Run : Set := mkRun {
  run_rows : Rows;
  run_out : list Out;
  run_exn : option exn
}.

Fixpoint process_loop (rows : Rows) (out : list Out) (comments : list Comment)
  : Run :=
  match comments with
  | [] => mkRun rows out None
  | i :: rest =>
      match process_comment rows i with
      | (rows', Ok o) => process_loop rows' (out ++ o) rest
      | (rows', Raise e) => mkRun rows' out (Some e)
      end
  end.

Definition ProcessComments (comments : list Comment) : Run :=
  process_loop (new_rows height bottomReserved) [] comments.

End Stage.

End Positioned.

(** ** ConvertFlashRotation, over the reals *)

Module FlashRotation.

#[local] Open Scope R_scope.

Definition Rltb (x y : R) : bool := if Rlt_dec x y then true else false.
Definition Reqb (x y : R) : bool := if Req_dec_T x y then true else false.

(** [x % m] on floats. *)
Definition fmod (x m : R) : R := x - m * IZR (Int_part (x / m)).

(** [WrapAngle] on an int and on a float. *)
Definition WrapAngleZ (deg : Z) : Z := (180 - ((180 - deg) mod 360))%Z.
Definition WrapAngle (deg : R) : R := 180 - fmod (180 - deg) 360.

(** [math.atan2(y, x)] *)
Definition atan2 (y x : R) : R :=
  if Rltb 0 x then atan (y / x)
  else if Rltb x 0 then
    if Rltb y 0 then atan (y / x) - PI else atan (y / x) + PI
  else if Rltb 0 y then PI / 2
  else if Rltb y 0 then - (PI / 2)
  else 0.

(** [rotY = WrapAngle(rotY)] followed by the nudge away from +-90. *)
Definition wrapped_rotY (rotY : Z) : Z :=
  let rotY := WrapAngleZ rotY in
  if ((rotY =? 90) || (rotY =? -90))%Z then (rotY - 1)%Z else rotY.

Definition radians (deg : Z) : R := IZR deg * (PI / 180).

(** [(outX, outY, outZ)] before the final wrap. *)
Definition out_angles (rotY rotZ : Z) : R * R * R :=
  let dY := wrapped_rotY rotY in
  let dZ := WrapAngleZ rotZ in
  if ((dY =? 0) || (dZ =? 0))%Z then (0, IZR (- dY), IZR (- dZ))
  else
    let rY := radians dY in
    let rZ := radians dZ in
    (asin (sin rY * sin rZ) * 180 / PI,
     atan2 (- sin rY * cos rZ) (cos rY) * 180 / PI,
     atan2 (- cos rY * sin rZ) (cos rZ) * 180 / PI).

(** [trX], [trY] before scaling, and the depth [trZ]. *)
Definition pre_trX (rotY rotZ : Z) (X Y : R) (width height : Z) : R :=
  let rY := radians (wrapped_rotY rotY) in
  let rZ := radians (WrapAngleZ rotZ) in
  (X * cos rZ + Y * sin rZ) / cos rY
  + (1 - cos rZ / cos rY) * IZR width / 2
  - sin rZ / cos rY * IZR height / 2.

Definition pre_trY (rotZ : Z) (X Y : R) (width height : Z) : R :=
  let rZ := radians (WrapAngleZ rotZ) in
  Y * cos rZ - X * sin rZ + sin rZ * IZR width / 2
  + (1 - cos rZ) * IZR height / 2.

Definition trZ (rotY rotZ : Z) (X Y : R) (width height : Z) : R :=
  (pre_trX rotY rotZ X Y width height - IZR width / 2)
  * sin (radians (wrapped_rotY rotY)).

Definition FOV (width : Z) : R := IZR width * tan (2 * PI / 9) / 2.

(** [scaleXY] as computed by the [try] statement. *)
Definition scaleXY (rotY rotZ : Z) (X Y : R) (width height : Z) : R :=
  let d := FOV width + trZ rotY rotZ X Y width height in
  if Reqb d 0 then 1 else FOV width / d.

Definition ConvertFlashRotation (rotY rotZ : Z) (X Y : R) (width height : Z)
  : R * R * R * R * R * R * R :=
  let '(oX, oY, oZ) := out_angles rotY rotZ in
  let s := scaleXY rotY rotZ X Y width height in
  let tX := (pre_trX rotY rotZ X Y width height - IZR width / 2) * s
            + IZR width / 2 in
  let tY := (pre_trY rotZ X Y width height - IZR height / 2) * s
            + IZR height / 2 in
  let '(s, oX, oY) := if Rltb s 0 then (- s, oX + 180, oY + 180) else (s, oX, oY) in
  (tX, tY, WrapAngle oX, WrapAngle oY, WrapAngle oZ, s * 100, s * 100).

End FlashRotation.

(** ** Specification vocabulary *)

(** The matrix branch and the swap branch of [ConvertColor], by name. *)
Definition bt709 (RGB : Z) : string :=
  hex6 (ClipByte (bt709_ch1 (chan_R RGB) (chan_G RGB) (chan_B RGB)))
       (ClipByte (bt709_ch2 (chan_R RGB) (chan_G RGB) (chan_B RGB)))
       (ClipByte (bt709_ch3 (chan_R RGB) (chan_G RGB) (chan_B RGB))).

Definition channel_swap (RGB : Z) : string :=
  hex6 (chan_B RGB) (chan_G RGB) (chan_R RGB).

(** Four lanes of [N] cells each. *)
Definition grid_shape (N : nat) (rows : Rows) : Prop :=
  List.length rows = 4%nat /\ Forall (fun lane => List.length lane = N) rows.

Definition colour_tags (styles : list Style) : list Style :=
  filter is_Colour styles.

(** ** Stand-ins for the library functions, for closed examples

    They agree with Python on the few inputs the examples use: payloads
    without string literals, integer literals, and no rotation. *)

Definition demo_loads (s : string) : option json :=
  if String.eqb s "[0,0,1,1,5]"
  then Some (JList [JInt 0; JInt 0; JInt 1; JInt 1; JInt 5])
  else if String.eqb s "[null,0,1,1,5]"
  then Some (JList [JNull; JInt 0; JInt 1; JInt 1; JInt 5])
  else if String.eqb s "[0,0,1,1]"
  then Some (JList [JInt 0; JInt 0; JInt 1; JInt 1])
  else if String.eqb s "null" then Some JNull
  else None.

Definition demo_str (x : json) : string :=
  match x with
  | JInt n => NilZero.string_of_int (Z.to_int n)
  | JStr s => s
  | _ => ""%string
  end.

Definition demo_int_of_str (s : string) : option Z :=
  option_map Z.of_int (NilZero.int_of_string s).

Definition demo_float_of_str (s : string) : option Q :=
  option_map inject_Z (demo_int_of_str s).

(** [ConvertFlashRotation] at [rotY = rotZ = 0]. *)
Definition demo_flash (rotY rotZ : Z) (X Y : Q) (width height : Z) : RotArg :=
  mkRotArg X Y 0 0 0 100 100.

(** Rules (a) and (b) of the marquee collision test, as formulas:
    (a) [o.time > c.time - duration * (1 - stage / (c.width + stage))],
    (b) [o.time + o.width * duration / (o.width + stage) > c.time]. *)
Definition rule_a (width : Z) (duration_marquee : Q) (c o : Comment) : bool :=
  Qltb (c_timeline c
        - duration_marquee
          * (1 - inject_Z width / (c_width c + inject_Z width)))%Q
       (c_timeline o).

Definition rule_b (width : Z) (duration_marquee : Q) (c o : Comment) : bool :=
  Qltb (c_timeline c)
       (c_timeline o
        + c_width o * duration_marquee / (c_width o + inject_Z width))%Q.

(** Rule (a) with the threshold the first [except ZeroDivisionError]
    clause sets. *)
Definition rule_a_fallback (duration_marquee : Q) (c o : Comment) : bool :=
  Qltb (c_timeline c - duration_marquee)%Q (c_timeline o).

(** The denominator [x.width + stage_width] is zero. *)
Definition zero_denominator (width : Z) (x : Comment) : bool :=
  Qeq_bool (c_width x + inject_Z width) 0.

(** The scroll-mode test with divisions by zero taken into account:
    rule (a) always applies, with the fallback threshold when the
    candidate's denominator is zero; rule (b) applies unless the occupant's
    denominator is zero. *)
Definition scroll_blocks (width : Z) (duration_marquee : Q) (c o : Comment)
  : bool :=
  (if zero_denominator width c then rule_a_fallback duration_marquee c o
   else rule_a width duration_marquee c o)
  || (if zero_denominator width o then false
      else rule_b width duration_marquee c o).

(** Number of cells at the head of [cells] that are unoccupied or whose
    occupant does not block. *)
Fixpoint free_run (blocks : Comment -> bool) (cells : list Cell) : nat :=
  match cells with
  | [] => O
  | None :: rest => S (free_run blocks rest)
  | Some o :: rest => if blocks o then O else S (free_run blocks rest)
  end.

(** The cells a scan from [row] may look at: at most [ceil h] of them, and
    none at or beyond [rowmax]. *)
Definition scan_window (lane : list Cell) (row rowmax : Z) (h : Q) : list Cell :=
  firstn (Z.to_nat (Z.min (ceil h) (rowmax - row))) (skipn (Z.to_nat row) lane).

(** The test [TestFreeRows] applies to a newly seen occupant. *)
Definition blocks_of (width : Z) (duration_marquee duration_still : Q)
    (c : Comment) : Comment -> bool :=
  if is_still c then still_blocks duration_still c
  else marquee_blocks width duration_marquee c.

(** [lane[k]] for a natural index. *)
Definition cell_at (lane : list Cell) (k : Z) : option Cell :=
  nth_error lane (Z.to_nat k).

(** State of the fallback scan after rows [0 .. row): nothing scanned yet,
    or every scanned row is occupied and [res] is the first row whose
    occupant is earliest. *)
Definition earliest_upto (lane : list Cell) (row res : Z) : Prop :=
  (row = 0 /\ res = 0)
  \/ (0 <= res < row
      /\ exists r, cell_at lane res = Some (Some r)
         /\ (forall k, 0 <= k < row ->
               exists o, cell_at lane k = Some (Some o)
                         /\ (c_timeline r <= c_timeline o)%Q
                         /\ (k < res -> (c_timeline r < c_timeline o)%Q))).

(** Row [r] is the first empty one among rows [0 .. n). *)
Definition first_empty (lane : list Cell) (n r : Z) : Prop :=
  0 <= r < n
  /\ cell_at lane r = Some None
  /\ forall k, 0 <= k < r -> exists o, cell_at lane k = Some (Some o).

(** A lane comment with the given time, sequence number, mode, height and
    width, for closed examples. *)
Definition demo_comment (t : Q) (no mode : Z) (h w : Q) : Comment :=
  mkComment t 0 no "x" (PosInt mode) 16777215 25 h w.

(** Lane comments as the reader yields them: the mode is 0, 1, 2 or 3. *)
Definition lane_mode_ok (c : Comment) : Prop :=
  match c_pos c with
  | PosInt m => 0 <= m < 4
  | PosStr _ => True
  end.

(** ** Placement vocabulary *)

(** Grid rows a comment placed at [row] occupies. *)
Definition occupies (c : Comment) (row k : Z) : Prop :=
  row <= k < row + ceil (c_height c).








(** Marking with [c] leaves each cell as it was or sets it to [c]. *)
Definition updated (c : Comment) (rows rows' : Rows) : Prop :=
  forall c' lane1,
    lane_of rows c' = Ok lane1 ->
    exists lane1',
      lane_of rows' c' = Ok lane1'
      /\ List.length lane1' = List.length lane1
      /\ forall k, cell_at lane1' k = cell_at lane1 k
                   \/ cell_at lane1' k = Some (Some c).




(** [ConvertTimestamp(t)] returns: [t * 100.0] is within the range of a
    float. *)
Definition converts (t : Q) : Prop := (Qabs (t * 100) < float_limit)%Q.

(** The display duration of a lane comment: [duration_still] for modes 1
    and 2, [duration_marquee] otherwise. *)
Definition duration_of (duration_marquee duration_still : Q) (c : Comment) : Q :=
  if is_still c then duration_still else duration_marquee.

(** Both timestamps of the line of a lane comment can be converted. *)
Definition timestamps_convert (duration_marquee duration_still : Q)
    (c : Comment) : Prop :=
  converts (c_timeline c)
  /\ converts (c_timeline c + duration_of duration_marquee duration_still c).


(** ** FilterBadChars *)

(** Membership in the class [[\x00-\x08\x0b\x0c\x0e-\x1f]]. *)
Definition is_bad_char (a : ascii) : bool :=
  let n := nat_of_ascii a in
  (n <=? 8)%nat || (n =? 11)%nat || (n =? 12)%nat
  || ((14 <=? n)%nat && (n <=? 31)%nat).

(** U+FFFD in UTF-8. *)
Definition replacement_char : string :=
  String (ascii_of_nat 239) (String (ascii_of_nat 191)
    (String (ascii_of_nat 189) EmptyString)).

(** [re.sub(class, U+FFFD, s)] on the text read from the file. *)
Fixpoint FilterBadChars (s : string) : string :=
  match s with
  | EmptyString => EmptyString
  | String a t =>
      if is_bad_char a then (replacement_char ++ FilterBadChars t)%string
      else String a (FilterBadChars t)
  end.

(** ** CalculateLength *)

(** [len(s)]: code points of a UTF-8 string, i.e. bytes that are not
    continuation bytes. *)
Definition is_continuation (a : ascii) : bool :=
  let n := nat_of_ascii a in (128 <=? n)%nat && (n <? 192)%nat.

Fixpoint py_len (s : string) : nat :=
  match s with
  | EmptyString => O
  | String a t => if is_continuation a then py_len t else S (py_len t)
  end.

(** [max(map(len, s.split("\n")))] *)
Definition CalculateLength (s : string) : nat :=
  fold_right Nat.max O (map py_len (split_char nl s)).

(** [s.count("\n")] *)
Fixpoint count_nl (s : string) : nat :=
  match s with
  | EmptyString => O
  | String a t => if Ascii.eqb a nl then S (count_nl t) else count_nl t
  end.

(** ** ReadCommentsBilibili *)

(** A child node of a [<d>] element: a text node with its [wholeText], or
    a node without that attribute. *)
Inductive Node : Set :=
| TextNode (wholeText : string)
| OtherNode.

(** A [<d>] element: its [p] attribute and its children. *)
Record Element : Set := mkElement {
  el_p : string;
  el_children : list Node
}.

(** What one iteration of the reader's loop does. *)
Inductive Read : Set :=
| Yield (c : Comment)
| Ignored
| Invalid.

Section Reader.

Variable int_of_str : string -> option Z.
Variable float_of_str : string -> option Q.
Variable fontsize : Q.

(** [{"1": 0, "4": 2, "5": 1, "6": 3}[t]], [None] outside the four keys. *)
Definition lane_of_type (t : string) : option Z :=
  if String.eqb t "1" then Some 0
  else if String.eqb t "4" then Some 2
  else if String.eqb t "5" then Some 1
  else if String.eqb t "6" then Some 3
  else None.

Definition known_type (t : string) : bool :=
  String.eqb t "1" || String.eqb t "4" || String.eqb t "5"
  || String.eqb t "6" || String.eqb t "7" || String.eqb t "8".

(** The body of the [try] for element number [i]; every exception of the
    [except] clause gives [Invalid].  The font size [p[2]] is taken to be
    an int within the range of a float; on a larger one [int(p[2]) *
    fontsize] raises [OverflowError], which ends the generator. *)
Definition read_element (i : Z) (comment : Element) : Read :=
  let p := split_char "," (el_p comment) in
  if (List.length p <? 5)%nat then Invalid
  else
    match nth_error p 0, nth_error p 1, nth_error p 2, nth_error p 3,
          nth_error p 4 with
    | Some p0, Some p1, Some p2, Some p3, Some p4 =>
        if negb (known_type p1) then Invalid
        else
          match el_children comment with
          | [] => Ignored
          | child :: _ =>
              match lane_of_type p1 with
              | Some mode =>
                  match child with
                  | OtherNode => Invalid
                  | TextNode wholeText =>
                      let c := replace_slash_n wholeText in
                      match int_of_str p2, float_of_str p0, int_of_str p4,
                            int_of_str p3 with
                      | Some n2, Some t, Some stamp, Some colour =>
                          let size := (inject_Z n2 * fontsize / 25)%Q in
                          Yield (mkComment t stamp i c (PosInt mode) colour size
                                   (inject_Z (Z.of_nat (count_nl c + 1)) * size)
                                   (inject_Z (Z.of_nat (CalculateLength c)) * size))
                      | _, _, _, _ => Invalid
                      end
                  end
              | None =>
                  if String.eqb p1 "7" then
                    match child with
                    | OtherNode => Invalid
                    | TextNode wholeText =>
                        match float_of_str p0, int_of_str p4, int_of_str p3,
                              int_of_str p2 with
                        | Some t, Some stamp, Some colour, Some n2 =>
                            Yield (mkComment t stamp i wholeText
                                     (PosStr "bilipos") colour (inject_Z n2) 0 0)
                        | _, _, _, _ => Invalid
                        end
                    end
                  else Ignored
              end
          end
    | _, _, _, _, _ => Invalid
    end.

(** The comments yielded for the elements numbered from [i] on. *)
Fixpoint read_elements (i : Z) (elements : list Element) : list Comment :=
  match elements with
  | [] => []
  | e :: rest =>
      match read_element i e with
      | Yield c => c :: read_elements (i + 1) rest
      | Ignored | Invalid => read_elements (i + 1) rest
      end
  end.

Definition ReadCommentsBilibili (elements : list Element) : list Comment :=
  read_elements 0 elements.

End Reader.

(** Every character of [s] satisfies [P]. *)
Fixpoint string_forall (P : ascii -> bool) (s : string) : bool :=
  match s with
  | EmptyString => true
  | String a t => P a && string_forall P t
  end.

Definition not_char (c : ascii) (a : ascii) : bool := negb (Ascii.eqb a c).

(** The comment an entry of the trace belongs to. *)
Definition out_comment (x : Out) : Comment :=
  match x with
  | OutComment c _ _ _ => c
  | OutPositioned c _ => c
  | OutInvalid c => c
  end.

(** [l] is obtained from [l'] by dropping elements. *)
Inductive subseq {A : Type} : list A -> list A -> Prop :=
| subseq_nil : subseq [] []
| subseq_skip (l l' : list A) (a : A) : subseq l l' -> subseq l (a :: l')
| subseq_keep (l l' : list A) (a : A) : subseq l l' -> subseq (a :: l) (a :: l').

(** Every occupied cell of [rows] is still occupied in [rows']. *)
Definition kept (rows rows' : Rows) : Prop :=
  forall c' lane1,
    lane_of rows c' = Ok lane1 ->
    exists lane1',
      lane_of rows' c' = Ok lane1'
      /\ List.length lane1' = List.length lane1
      /\ forall k o, cell_at lane1 k = Some (Some o) ->
           exists o', cell_at lane1' k = Some (Some o').

(** A comment for the lanes, with mode 0, 1, 2 or 3. *)
Definition is_lane (c : Comment) : Prop :=
  exists m, c_pos c = PosInt m /\ 0 <= m < 4.

(** [ConvertColor] writes the grey of level [v] as [v, v, v]. *)
Definition grey_unchanged (width height : Z) (v : Z) : bool :=
  String.eqb (ConvertColor (v * 65793) width height) (hex6 v v v).

(** * Properties *)

(** ** Arithmetic of the Python primitives *)

Lemma Qltb_lt (x y : Q) : Qltb x y = true <-> (x < y)%Q.
Proof.
  unfold Qltb. rewrite negb_true_iff. split.
  - intros H. apply Qnot_le_lt. intros L.
    apply Qle_bool_iff in L. congruence.
  - intros H. destruct (Qle_bool y x) eqn:E; [|reflexivity].
    apply Qle_bool_iff in E. exfalso. apply (Qlt_not_le _ _ H E).
Qed.

Lemma Qltb_ge (x y : Q) : Qltb x y = false <-> (y <= x)%Q.
Proof.
  unfold Qltb. rewrite negb_false_iff. apply Qle_bool_iff.
Qed.

Lemma Qltb_compat (x x' y y' : Q) :
  (x == x')%Q -> (y == y')%Q -> Qltb x y = Qltb x' y'.
Proof.
  intros Hx Hy.
  destruct (Qltb x y) eqn:E, (Qltb x' y') eqn:E'; try reflexivity.
  - apply Qltb_lt in E. apply Qltb_ge in E'. rewrite Hx, Hy in E.
    exfalso. apply (Qlt_not_le _ _ E E').
  - apply Qltb_ge in E. apply Qltb_lt in E'. rewrite Hx, Hy in E.
    exfalso. apply (Qlt_not_le _ _ E' E).
Qed.

Lemma round_range (x : Q) (lo hi : Z) :
  (inject_Z lo <= x)%Q -> (x <= inject_Z hi)%Q -> lo <= round x <= hi.
Proof.
  intros Hlo Hhi.
  assert (Hf : lo <= Qfloor x).
  { rewrite <- (Qfloor_Z lo). apply Qfloor_resp_le. exact Hlo. }
  assert (Hc : Qfloor x <= hi).
  { rewrite <- (Qfloor_Z hi). apply Qfloor_resp_le. exact Hhi. }
  unfold round.
  destruct (x - inject_Z (Qfloor x) ?= 1 # 2)%Q eqn:E; try lia.
  - destruct (Z.even (Qfloor x)); try lia.
    apply Qeq_alt in E.
    assert (Hlt : (inject_Z (Qfloor x) < inject_Z hi)%Q) by Lqa.lra.
    rewrite <- Zlt_Qlt in Hlt. lia.
  - apply Qgt_alt in E.
    assert (Hlt : (inject_Z (Qfloor x) < inject_Z hi)%Q) by Lqa.lra.
    rewrite <- Zlt_Qlt in Hlt. lia.
Qed.

Lemma ClipByte_range (x : Q) : 0 <= ClipByte x <= 255.
Proof.
  unfold ClipByte.
  destruct (Qltb 255 x) eqn:E1; [lia|].
  destruct (Qltb x 0) eqn:E2; [lia|].
  apply Qltb_ge in E1. apply Qltb_ge in E2.
  apply round_range; assumption.
Qed.

(** ** ConvertColor *)


Lemma ConvertColor_branches (RGB width height : Z) :
  RGB <> 0 -> RGB <> 16777215 ->
  ConvertColor RGB width height =
    if (width <? 1280) && (height <? 576) then channel_swap RGB else bt709 RGB.
Proof.
  intros H0 H1. unfold ConvertColor.
  destruct (Z.eqb_spec RGB 0); [contradiction|].
  destruct (Z.eqb_spec RGB 16777215); [contradiction|].
  reflexivity.
Qed.

(** C7, as stated, at width 1920 and height 100: the resolution is not at
    least 1280x576, yet the result is the matrix conversion and differs
    from the channel swap. *)
Lemma ConvertColor_matrix_below_threshold_height :
  ~ (1280 <= 1920 /\ 576 <= 100)
  /\ ConvertColor 1193046 1920 100 = bt709 1193046
  /\ ConvertColor 1193046 1920 100 <> channel_swap 1193046.
Proof.
  split; [lia|]. split; [reflexivity|].
  vm_compute. discriminate.
Qed.

(** C7 (amended): black and white are returned unchanged at every
    resolution; any other colour gets the BT.601 to BT.709 matrix, each
    channel clamped to [0, 255], exactly when the width is at least 1280 or
    the height is at least 576, and the channel swap when both are below. *)
Theorem ConvertColor_spec (RGB width height : Z) :
  ConvertColor 0 width height = "000000"%string
  /\ ConvertColor 16777215 width height = "FFFFFF"%string
  /\ (RGB <> 0 -> RGB <> 16777215 ->
      ((1280 <= width \/ 576 <= height) ->
         ConvertColor RGB width height = bt709 RGB)
      /\ ((width < 1280 /\ height < 576) ->
         ConvertColor RGB width height = channel_swap RGB))
  /\ (forall R G B,
        0 <= ClipByte (bt709_ch1 R G B) <= 255
        /\ 0 <= ClipByte (bt709_ch2 R G B) <= 255
        /\ 0 <= ClipByte (bt709_ch3 R G B) <= 255).
Proof.
  split; [reflexivity|]. split; [reflexivity|]. split.
  - intros H0 H1. rewrite (ConvertColor_branches _ _ _ H0 H1). split.
    + intros [Hw | Hh].
      * destruct (Z.ltb_spec width 1280); [lia|]. reflexivity.
      * destruct (Z.ltb_spec height 576); [lia|].
        rewrite andb_false_r. reflexivity.
    + intros [Hw Hh].
      destruct (Z.ltb_spec width 1280); [|lia].
      destruct (Z.ltb_spec height 576); [|lia]. reflexivity.
  - intros R G B. repeat split; apply ClipByte_range.
Qed.

Lemma ConvertColor_spec_witness :
  ConvertColor 1193046 1920 100 = "543515"%string
  /\ ConvertColor 1193046 640 480 = "563412"%string.
Proof.
  destruct (ConvertColor_spec 1193046 1920 100) as (_ & _ & H & _).
  destruct (H ltac:(lia) ltac:(lia)) as [Hm _].
  destruct (ConvertColor_spec 1193046 640 480) as (_ & _ & H' & _).
  destruct (H' ltac:(lia) ltac:(lia)) as [_ Hs].
  split.
  - rewrite Hm by (left; lia). vm_compute. reflexivity.
  - rewrite Hs by lia. vm_compute. reflexivity.
Defined.

(** ** Lists indexed the Python way *)

Lemma getitem_nonneg {A : Type} (l : list A) (i : Z) :
  0 <= i ->
  getitem l i = match nth_error l (Z.to_nat i) with
                | Some a => Ok a
                | None => Raise IndexError
                end.
Proof.
  intros Hi. unfold getitem, norm_index.
  destruct (Z.leb_spec 0 i); [|lia].
  destruct (Z.ltb_spec i (Z.of_nat (List.length l))); [reflexivity|].
  destruct (nth_error l (Z.to_nat i)) eqn:E; [|reflexivity].
  assert (Hn : nth_error l (Z.to_nat i) <> None) by congruence.
  apply nth_error_Some in Hn. lia.
Qed.

Lemma getitem_In {A : Type} (l : list A) (i : Z) (a : A) :
  getitem l i = Ok a -> In a l.
Proof.
  unfold getitem. destruct (norm_index _ i); [|discriminate].
  destruct (nth_error l n) eqn:E; [|discriminate].
  intros [= <-]. eapply nth_error_In; eauto.
Qed.

Lemma set_nth_length {A : Type} (l : list A) (n : nat) (a : A) :
  List.length (set_nth l n a) = List.length l.
Proof.
  revert n. induction l as [|h t IH]; intros [|n]; simpl; auto.
Qed.

Lemma nth_error_set_nth_eq {A : Type} (l : list A) (n : nat) (a : A) :
  (n < List.length l)%nat -> nth_error (set_nth l n a) n = Some a.
Proof.
  revert n. induction l as [|h t IH]; intros [|n] H; simpl in *; try lia; auto.
  apply IH. lia.
Qed.

Lemma nth_error_set_nth_neq {A : Type} (l : list A) (n k : nat) (a : A) :
  n <> k -> nth_error (set_nth l n a) k = nth_error l k.
Proof.
  revert n k. induction l as [|h t IH]; intros [|n] [|k] H; simpl; auto.
  congruence.
Qed.

Lemma setitem_length {A : Type} (l l' : list A) (i : Z) (a : A) :
  setitem l i a = Ok l' -> List.length l' = List.length l.
Proof.
  unfold setitem. destruct (norm_index _ i); [|discriminate].
  intros [= <-]. apply set_nth_length.
Qed.

Lemma In_set_nth {A : Type} (l : list A) (n : nat) (a x : A) :
  In x (set_nth l n a) -> x = a \/ In x l.
Proof.
  revert n. induction l as [|h t IH]; intros [|n]; simpl; auto.
  - intros [->|H]; auto.
  - intros [->|H]; auto. destruct (IH _ H); auto.
Qed.

(** ** Shape of the lane grid *)


Lemma new_rows_shape (height bottomReserved : Z) :
  grid_shape (Z.to_nat (height - bottomReserved + 1))
    (new_rows height bottomReserved).
Proof.
  unfold new_rows. split; [reflexivity|].
  simpl. repeat constructor; apply repeat_length.
Qed.

Lemma mark_cell_shape (N : nat) (rows rows' : Rows) (c : Comment) (i : Z) :
  grid_shape N rows -> mark_cell rows c i = Ok rows' -> grid_shape N rows'.
Proof.
  intros [Hl Hf] H. unfold mark_cell in H.
  destruct (c_pos c) as [m|]; [|discriminate].
  destruct (getitem rows m) as [lane|] eqn:Eg; [|discriminate]. simpl in H.
  destruct (setitem lane i (Some c)) as [lane'|] eqn:Es; [|discriminate].
  simpl in H. pose proof (setitem_length _ _ _ _ H) as Hlen.
  split; [congruence|].
  unfold setitem in H. destruct (norm_index _ m); [|discriminate].
  injection H as <-.
  rewrite Forall_forall in *. intros x Hx.
  apply In_set_nth in Hx. destruct Hx as [->|Hx]; [|auto].
  rewrite (setitem_length _ _ _ _ Es).
  apply Hf. eapply getitem_In; eauto.
Qed.

Lemma mark_loop_shape (N : nat) (c : Comment) (n : nat) :
  forall (rows rows' : Rows) (i : Z),
    grid_shape N rows -> mark_loop rows c n i = Ok rows' -> grid_shape N rows'.
Proof.
  induction n as [|n IH]; intros rows rows' i Hs H; simpl in H.
  - injection H as <-. exact Hs.
  - destruct (mark_cell rows c i) as [r|e] eqn:E.
    + eapply IH; [|exact H]. eapply mark_cell_shape; eauto.
    + destruct e; try discriminate. injection H as <-. exact Hs.
Qed.

Lemma MarkCommentRow_shape (N : nat) (rows rows' : Rows) (c : Comment) (row : Z) :
  grid_shape N rows -> MarkCommentRow rows c row = Ok rows' -> grid_shape N rows'.
Proof. apply mark_loop_shape. Qed.

Section RunShape.

Variable json_loads : string -> option json.
Variable py_str : json -> string.
Variable int_of_str : string -> option Z.
Variable float_of_str : string -> option Q.
Variable flash : Z -> Z -> Q -> Q -> Z -> Z -> RotArg.
Variables (width height bottomReserved : Z).
Variables (fontsize duration_marquee duration_still : Q).
Variable filters_regex : list (string -> bool).
Variable reduced : bool.

Let step := process_comment json_loads py_str int_of_str float_of_str flash
              width height bottomReserved fontsize duration_marquee
              duration_still filters_regex reduced.
Let loop := process_loop json_loads py_str int_of_str float_of_str flash
              width height bottomReserved fontsize duration_marquee
              duration_still filters_regex reduced.

(** The grid keeps its shape through an iteration, whether it ends
    normally or with an exception. *)
Lemma process_comment_shape (N : nat) (rows rows' : Rows) (i : Comment)
    (r : result (list Out)) :
  grid_shape N rows -> step rows i = (rows', r) -> grid_shape N rows'.
Proof.
  intros Hs H. unfold step, process_comment in H.
  assert (Hw : forall row f r1 o',
             write_at width height bottomReserved fontsize duration_marquee
               duration_still rows i row f = (r1, o') -> grid_shape N r1).
  { intros row f r1 o' Hw. unfold write_at in Hw.
    destruct (MarkCommentRow rows i row) as [r'|] eqn:E.
    - injection Hw as <- _. eapply MarkCommentRow_shape; eauto.
    - injection Hw as <- _. exact Hs. }
  destruct (c_pos i) as [m|s].
  - destruct (existsb _ filters_regex).
    + injection H as <- _. exact Hs.
    + destruct (find_row _ _ _ _ _ rows i) as [[row|]|].
      * eapply Hw; eauto.
      * destruct reduced; simpl in H.
        -- injection H as <- _. exact Hs.
        -- destruct (FindAlternativeRow rows i height bottomReserved)
             as [row|].
           ++ eapply Hw; eauto.
           ++ injection H as <- _. exact Hs.
      * injection H as <- _. exact Hs.
  - destruct (String.eqb s "bilipos"); injection H as <- _; exact Hs.
Qed.

Lemma process_loop_shape (N : nat) (comments : list Comment) :
  forall (rows : Rows) (out : list Out),
    grid_shape N rows -> grid_shape N (run_rows (loop rows out comments)).
Proof.
  induction comments as [|i rest IH]; intros rows out Hs; simpl.
  - exact Hs.
  - fold step. destruct (step rows i) as [rows' [o|e]] eqn:E.
    + apply IH. eapply process_comment_shape; eauto.
    + simpl. eapply process_comment_shape; eauto.
Qed.

End RunShape.

(** C9, as stated, on a stage of height 2 without reserved margin: the
    lanes do not have [usable_height = 2] cells. *)
Lemma new_rows_length_not_usable_height :
  ~ Forall (fun lane => Z.of_nat (List.length lane) = 2 - 0) (new_rows 2 0).
Proof.
  intros H. inversion H as [|lane rest Hlane _]. vm_compute in Hlane.
  discriminate.
Qed.

(** C9 (amended): [ProcessComments] starts from exactly four lane arrays,
    one per mode value, each of length [height - bottomReserved + 1], that
    is [usable_height + 1]; marking never changes that shape, so the grid of
    a run has it throughout. *)
Theorem ProcessComments_grid_shape
    (json_loads : string -> option json) (py_str : json -> string)
    (int_of_str : string -> option Z) (float_of_str : string -> option Q)
    (flash : Z -> Z -> Q -> Q -> Z -> Z -> RotArg)
    (width height bottomReserved : Z)
    (fontsize duration_marquee duration_still : Q)
    (filters_regex : list (string -> bool)) (reduced : bool)
    (comments : list Comment) :
  let usable_height := height - bottomReserved in
  List.length (new_rows height bottomReserved) = 4%nat
  /\ Forall (fun lane => List.length lane = Z.to_nat (usable_height + 1))
       (new_rows height bottomReserved)
  /\ Forall (fun lane => Forall (fun cell => cell = None) lane)
       (new_rows height bottomReserved)
  /\ grid_shape (Z.to_nat (usable_height + 1))
       (run_rows (ProcessComments json_loads py_str int_of_str float_of_str
                    flash width height bottomReserved fontsize
                    duration_marquee duration_still filters_regex reduced
                    comments)).
Proof.
  intros usable_height.
  destruct (new_rows_shape height bottomReserved) as [H4 HN].
  split; [exact H4|]. split; [exact HN|]. split.
  - unfold new_rows. simpl.
    repeat constructor; apply Forall_forall; intros x Hx;
      apply repeat_spec in Hx; exact Hx.
  - unfold ProcessComments. apply process_loop_shape. apply new_rows_shape.
Qed.

(** ** Colour tags of the rendered lines *)

Lemma colour_tags_app (a b : list Style) :
  colour_tags (a ++ b) = colour_tags a ++ colour_tags b.
Proof. apply filter_app. Qed.

Lemma colour_tags_colour_styles (c : Comment) :
  colour_tags (colour_styles c) =
    if c_color c =? 16777215 then []
    else [Colour (ConvertColor (c_color c) 1280 576)].
Proof.
  unfold colour_styles, ConvertColor_default.
  destruct (c_color c =? 16777215); [reflexivity|].
  destruct (c_color c =? 0); reflexivity.
Qed.

Lemma WriteComment_colour_tags (c : Comment) (row width height bottomReserved : Z)
    (fontsize duration_marquee duration_still : Q) :
  colour_tags (ev_styles (WriteComment c row width height bottomReserved
                            fontsize duration_marquee duration_still))
  = colour_tags (colour_styles c).
Proof.
  unfold WriteComment, position_style.
  destruct (pos_is c 1); [|destruct (pos_is c 2); [|destruct (pos_is c 3)]];
    cbn [ev_styles].
  all: rewrite !colour_tags_app.
  all: destruct (Qltb (-1) (c_size c - fontsize) && Qltb (c_size c - fontsize) 1).
  all: reflexivity.
Qed.

Lemma bind_Ok {A B : Type} (a : A) (k : A -> result B) :
  Py.bind (Ok a) k = k a.
Proof. reflexivity. Qed.

Ltac bind_ok H :=
  repeat match type of H with
    | Py.bind ?m _ = Ok _ =>
        let E := fresh "E" in
        destruct m eqn:E; [rewrite bind_Ok in H; cbv beta in H|discriminate H]
    end.

Lemma positioned_styles_colour_tags (py_str : json -> string) (c : Comment)
    (width height : Z) (ZoomFactor : Q * Q * Q) (from_rotarg to_rotarg : RotArg)
    (from_x from_y to_x to_y : Q) (from_alpha to_alpha : Z) (lifetime : Q)
    (duration delay : Z) (fontface isborder : json) :
  colour_tags (positioned_styles py_str c width height ZoomFactor from_rotarg
                 to_rotarg from_x from_y to_x to_y from_alpha to_alpha
                 lifetime duration delay fontface isborder)
  = colour_tags (colour_styles c).
Proof.
  unfold positioned_styles. rewrite !colour_tags_app.
  assert (Hb : colour_tags
                 match isborder with
                 | JStr s => if String.eqb s "false" then [Bord0] else []
                 | _ => []
                 end = []).
  { destruct isborder; try reflexivity. destruct (String.eqb s "false"); reflexivity. }
  rewrite Hb. clear Hb.
  destruct (Qeq_bool (trX from_rotarg) (trX to_rotarg)
            && Qeq_bool (trY from_rotarg) (trY to_rotarg));
    destruct (Qeq_bool from_x to_x && Qeq_bool from_y to_y);
    destruct (truthy fontface);
    destruct (from_alpha =? to_alpha);
    destruct ((from_alpha =? 255) && (to_alpha =? 0));
    destruct ((from_alpha =? 0) && (to_alpha =? 255));
    cbn [colour_tags filter is_Colour app rot_tags];
    rewrite ?app_nil_r; reflexivity.
Qed.

Lemma positioned_try_colour_tags
    (json_loads : string -> option json) (py_str : json -> string)
    (int_of_str : string -> option Z) (float_of_str : string -> option Q)
    (flash : Z -> Z -> Q -> Q -> Z -> Z -> RotArg)
    (c : Comment) (width height : Z) (ev : Event) :
  positioned_try json_loads py_str int_of_str float_of_str flash c width height
    = Ok ev ->
  colour_tags (ev_styles ev) = colour_tags (colour_styles c).
Proof.
  intros H. unfold positioned_try in H. cbv zeta in H. bind_ok H.
  injection H as <-. cbn [ev_styles].
  apply positioned_styles_colour_tags.
Qed.

(** C10: whatever the configured stage size, the colour tag of every line
    written by [WriteComment] or by the positioned writer is
    [ConvertColor] at the default resolution 1280x576, which for a colour
    that is neither black nor white is the BT.709 matrix branch, never the
    channel swap. *)
Theorem renderer_colour_default_resolution
    (json_loads : string -> option json) (py_str : json -> string)
    (int_of_str : string -> option Z) (float_of_str : string -> option Q)
    (flash : Z -> Z -> Q -> Q -> Z -> Z -> RotArg)
    (c : Comment) (row width height bottomReserved : Z)
    (fontsize duration_marquee duration_still : Q) :
  let expected :=
    if c_color c =? 16777215 then []
    else [Colour (ConvertColor (c_color c) 1280 576)] in
  colour_tags (ev_styles (WriteComment c row width height bottomReserved
                            fontsize duration_marquee duration_still))
    = expected
  /\ (forall ev,
        positioned_try json_loads py_str int_of_str float_of_str flash
          c width height = Ok ev ->
        colour_tags (ev_styles ev) = expected)
  /\ (c_color c <> 0 -> c_color c <> 16777215 ->
      ConvertColor (c_color c) 1280 576 = bt709 (c_color c)
      /\ expected = [Colour (bt709 (c_color c))]).
Proof.
  intros expected. split; [|split].
  - rewrite WriteComment_colour_tags. apply colour_tags_colour_styles.
  - intros ev H. rewrite (positioned_try_colour_tags _ _ _ _ _ _ _ _ _ H).
    apply colour_tags_colour_styles.
  - intros H0 H1.
    assert (E : ConvertColor (c_color c) 1280 576 = bt709 (c_color c)).
    { rewrite (ConvertColor_branches _ _ _ H0 H1). reflexivity. }
    split; [exact E|]. unfold expected.
    destruct (Z.eqb_spec (c_color c) 16777215); [contradiction|].
    rewrite E. reflexivity.
Qed.

Lemma renderer_colour_default_resolution_witness :
  let c := mkComment 0 0 0 "[0,0,1,1,5]" (PosStr "bilipos") 1193046 25 0 0 in
  exists ev,
    positioned_try demo_loads demo_str demo_int_of_str demo_float_of_str
      demo_flash c 640 480 = Ok ev
    /\ colour_tags (ev_styles ev) = [Colour "543515"].
Proof.
  intros c.
  destruct (renderer_colour_default_resolution demo_loads demo_str
              demo_int_of_str demo_float_of_str demo_flash c 0 640 480 0
              25 5 5) as (_ & Hp & Hm).
  destruct (positioned_try demo_loads demo_str demo_int_of_str
              demo_float_of_str demo_flash c 640 480) as [ev|e] eqn:E.
  - exists ev. split; [reflexivity|].
    rewrite (Hp ev eq_refl).
    destruct Hm as [Hm _]; [discriminate | discriminate |].
    cbn [c_color c]. vm_compute. reflexivity.
  - vm_compute in E. discriminate E.
Defined.

(** ** Perspective scale of ConvertFlashRotation *)

Section FlashRotationFacts.

Import FlashRotation.
#[local] Open Scope R_scope.

Lemma forty_degrees : 40 * (PI / 180) = 2 * PI / 9.
Proof. lra. Qed.

Lemma tan_forty_pos : 0 < tan (2 * PI / 9).
Proof.
  pose proof PI_RGT_0 as Hpi.
  apply tan_gt_0; lra.
Qed.

Lemma Reqb_false (x y : R) : x <> y -> Reqb x y = false.
Proof.
  intros H. unfold Reqb. destruct (Req_dec_T x y); [contradiction|reflexivity].
Qed.

Lemma scaleXY_nonzero (rotY rotZ : Z) (X Y : R) (width height : Z) :
  FOV width + trZ rotY rotZ X Y width height <> 0 ->
  scaleXY rotY rotZ X Y width height
  = FOV width / (FOV width + trZ rotY rotZ X Y width height).
Proof.
  intros H. unfold scaleXY. cbv zeta. rewrite (Reqb_false _ _ H). reflexivity.
Qed.

Lemma sqrt2_pos : 0 < sqrt 2.
Proof. apply sqrt_lt_R0. lra. Qed.

Lemma trZ_sample : trZ 45 0 2 0 2 0 = 1.
Proof.
  unfold trZ, pre_trX.
  replace (wrapped_rotY 45) with 45%Z by reflexivity.
  replace (WrapAngleZ 0) with 0%Z by reflexivity.
  cbv zeta.
  replace (radians 45) with (PI / 4) by (unfold radians; lra).
  replace (radians 0) with 0 by (unfold radians; lra).
  rewrite cos_PI4, sin_PI4, cos_0, sin_0.
  pose proof sqrt2_pos as Hs.
  field. lra.
Qed.

(** C6, as stated, on a stage of width 2 with [rotY = 45], anchor
    [(2, 0)]: the depth is 1, and the scale factor is not
    [FOV / (FOV + depth)] for [FOV = width * tan(40 degrees)]. *)
Lemma scaleXY_not_width_tan40 :
  let FOV' := IZR 2 * tan (40 * (PI / 180)) in
  let depth := trZ 45 0 2 0 2 0 in
  FOV' + depth <> 0
  /\ scaleXY 45 0 2 0 2 0 <> FOV' / (FOV' + depth).
Proof.
  cbv zeta. rewrite forty_degrees, trZ_sample.
  pose proof tan_forty_pos as Ht.
  set (t := tan (2 * PI / 9)) in *.
  split; [lra|].
  assert (HF : FOV 2 = t) by (unfold FOV; fold t; lra).
  rewrite scaleXY_nonzero; rewrite trZ_sample, HF; [|lra].
  intros H.
  assert (H' : t * (2 * t + 1) = 2 * t * (t + 1)).
  { apply (f_equal (fun x => x * (t + 1) * (2 * t + 1))) in H.
    field_simplify in H; lra. }
  nra.
Qed.

(** C6 (amended): with [FOV = width * tan(40 degrees) / 2] and
    [FOV + depth] non-zero, the scale factor is [FOV / (FOV + depth)]; it
    is the factor applied to the anchor point around the stage centre, and
    the returned scales are its absolute value times 100. *)
Theorem ConvertFlashRotation_scale (rotY rotZ : Z) (X Y : R) (width height : Z)
    (tX tY oX oY oZ sX sY : R) :
  FOV width + trZ rotY rotZ X Y width height <> 0 ->
  ConvertFlashRotation rotY rotZ X Y width height
    = (tX, tY, oX, oY, oZ, sX, sY) ->
  let depth := trZ rotY rotZ X Y width height in
  let scale := FOV width / (FOV width + depth) in
  FOV width = IZR width * tan (40 * (PI / 180)) / 2
  /\ scaleXY rotY rotZ X Y width height = scale
  /\ tX = (pre_trX rotY rotZ X Y width height - IZR width / 2) * scale
          + IZR width / 2
  /\ tY = (pre_trY rotZ X Y width height - IZR height / 2) * scale
          + IZR height / 2
  /\ sX = Rabs scale * 100
  /\ sY = Rabs scale * 100.
Proof.
  intros Hnz H depth scale.
  pose proof (scaleXY_nonzero rotY rotZ X Y width height Hnz) as Hs.
  fold depth in Hs. fold scale in Hs.
  split; [unfold FOV; rewrite forty_degrees; reflexivity|].
  split; [exact Hs|].
  unfold ConvertFlashRotation in H.
  destruct (out_angles rotY rotZ) as [[aX aY] aZ].
  rewrite Hs in H. cbv zeta in H.
  unfold Rltb in H. destruct (Rlt_dec scale 0) as [Hneg|Hpos].
  - injection H as <- <- _ _ _ <- <-.
    rewrite (Rabs_left _ Hneg). auto.
  - injection H as <- <- _ _ _ <- <-.
    rewrite (Rabs_right scale) by lra. auto.
Qed.

Lemma ConvertFlashRotation_scale_witness :
  exists tX tY oX oY oZ sX sY,
    ConvertFlashRotation 45 0 2 0 2 0 = (tX, tY, oX, oY, oZ, sX, sY)
    /\ sX = Rabs (FOV 2 / (FOV 2 + 1)) * 100.
Proof.
  destruct (ConvertFlashRotation 45 0 2 0 2 0)
    as [[[[[[tX tY] oX] oY] oZ] sX] sY] eqn:E.
  exists tX, tY, oX, oY, oZ, sX, sY. split; [reflexivity|].
  assert (Hnz : FOV 2 + trZ 45 0 2 0 2 0 <> 0).
  { rewrite trZ_sample. unfold FOV. pose proof tan_forty_pos. lra. }
  destruct (ConvertFlashRotation_scale 45 0 2 0 2 0 tX tY oX oY oZ sX sY Hnz E)
    as (_ & _ & _ & _ & HsX & _).
  rewrite trZ_sample in HsX. exact HsX.
Defined.

End FlashRotationFacts.

(** ** The free-run scan *)

Lemma Qeq_bool_compat (x y z : Q) : (x == y)%Q -> Qeq_bool x z = Qeq_bool y z.
Proof.
  intros H. destruct (Qeq_bool x z) eqn:E, (Qeq_bool y z) eqn:E'; try reflexivity.
  - apply Qeq_bool_iff in E. rewrite H in E. apply Qeq_bool_iff in E. congruence.
  - apply Qeq_bool_iff in E'. rewrite <- H in E'. apply Qeq_bool_iff in E'.
    congruence.
Qed.

Lemma Comment_eqb_fields (x y : Comment) :
  Comment_eqb x y = true ->
  (c_timeline x == c_timeline y)%Q /\ (c_width x == c_width y)%Q.
Proof.
  unfold Comment_eqb. rewrite !andb_true_iff.
  intros [[[[[[[[Ht _] _] _] _] _] _] _] Hw].
  split; apply Qeq_bool_iff; assumption.
Qed.

Lemma still_blocks_compat (duration_still : Q) (c x y : Comment) :
  Comment_eqb x y = true ->
  still_blocks duration_still c x = still_blocks duration_still c y.
Proof.
  intros H. apply Comment_eqb_fields in H as [Ht _].
  unfold still_blocks. apply Qltb_compat; [reflexivity|].
  rewrite Ht. reflexivity.
Qed.

Lemma marquee_blocks_compat (width : Z) (duration_marquee : Q) (c x y : Comment) :
  Comment_eqb x y = true ->
  marquee_blocks width duration_marquee c x
  = marquee_blocks width duration_marquee c y.
Proof.
  intros H. apply Comment_eqb_fields in H as [Ht Hw].
  unfold marquee_blocks, marquee_cond, truediv.
  rewrite (Qltb_compat _ (thresholdTime width duration_marquee c)
             (c_timeline x) (c_timeline y)) by (auto; reflexivity).
  destruct (Qltb (thresholdTime width duration_marquee c) (c_timeline y));
    [reflexivity|].
  rewrite (Qeq_bool_compat (c_width x + inject_Z width)
             (c_width y + inject_Z width)) by (rewrite Hw; reflexivity).
  destruct (Qeq_bool (c_width y + inject_Z width) 0); [reflexivity|].
  cbn [Py.bind]. apply Qltb_compat; [reflexivity|].
  rewrite Ht, Hw. reflexivity.
Qed.

Lemma blocks_of_compat (width : Z) (duration_marquee duration_still : Q)
    (c x y : Comment) :
  Comment_eqb x y = true ->
  blocks_of width duration_marquee duration_still c x
  = blocks_of width duration_marquee duration_still c y.
Proof.
  unfold blocks_of. destruct (is_still c).
  - apply still_blocks_compat.
  - apply marquee_blocks_compat.
Qed.

Lemma res_lt_height (res : Z) (h : Q) :
  Qltb (inject_Z res) h = true <-> res < ceil h.
Proof.
  rewrite Qltb_lt. unfold ceil. split.
  - intros H. pose proof (Qle_ceiling h) as Hc.
    assert (Hlt : (inject_Z res < inject_Z (Qceiling h))%Q)
      by (eapply Qlt_le_trans; eauto).
    rewrite <- Zlt_Qlt in Hlt. exact Hlt.
  - intros H. pose proof (Qceiling_lt h) as Hc.
    assert (Hle : (inject_Z res <= inject_Z (Qceiling h - 1))%Q)
      by (rewrite <- Zle_Qle; lia).
    eapply Qle_lt_trans; eauto.
Qed.

Lemma skipn_cons_nth {A : Type} (l : list A) (n : nat) (a : A) :
  nth_error l n = Some a -> skipn n l = a :: skipn (S n) l.
Proof.
  revert n. induction l as [|h t IH]; intros [|n] H; simpl in *;
    try discriminate.
  - injection H as ->. reflexivity.
  - apply IH. exact H.
Qed.

Lemma getitem_cell (lane : list Cell) (k : Z) :
  0 <= k < Z.of_nat (List.length lane) ->
  exists cell, cell_at lane k = Some cell /\ getitem lane k = Ok cell.
Proof.
  intros Hk. rewrite getitem_nonneg by lia. unfold cell_at.
  destruct (nth_error lane (Z.to_nat k)) as [cell|] eqn:E.
  - exists cell. auto.
  - apply nth_error_None in E. lia.
Qed.

Lemma free_rows_loop_run (blocks : Comment -> bool) (rows : Rows) (c : Comment)
    (rowmax : Z) (lane : list Cell) :
  lane_of rows c = Ok lane ->
  (forall x y, Comment_eqb x y = true -> blocks x = blocks y) ->
  rowmax <= Z.of_nat (List.length lane) ->
  forall (fuel : nat) (row res : Z) (targetRow : Cell),
    0 <= row -> rowmax - row <= Z.of_nat fuel ->
    (forall t, targetRow = Some t -> blocks t = false) ->
    free_rows_loop blocks rows c rowmax fuel row res targetRow
    = Ok (res + Z.of_nat
                  (free_run blocks
                     (firstn (Z.to_nat (Z.min (ceil (c_height c) - res)
                                          (rowmax - row)))
                        (skipn (Z.to_nat row) lane)))).
Proof.
  intros Hlane Hcompat Hlen.
  induction fuel as [|fuel IH]; intros row res targetRow Hrow Hfuel Htarget.
  - simpl. replace (Z.to_nat _) with O by lia. simpl. f_equal. lia.
  - cbn [free_rows_loop].
    destruct ((row <? rowmax) && Qltb (inject_Z res) (c_height c)) eqn:Econd.
    + apply andb_true_iff in Econd as [Hr Hh].
      apply Z.ltb_lt in Hr. apply res_lt_height in Hh.
      rewrite Hlane. cbn [Py.bind].
      destruct (getitem_cell lane row ltac:(lia)) as (cell & Hcell & Hget).
      rewrite Hget. cbn [Py.bind].
      unfold cell_at in Hcell. rewrite (skipn_cons_nth _ _ _ Hcell).
      replace (Z.to_nat (Z.min (ceil (c_height c) - res) (rowmax - row)))
        with (S (Z.to_nat (Z.min (ceil (c_height c) - (res + 1))
                             (rowmax - (row + 1))))) by lia.
      replace (S (Z.to_nat row)) with (Z.to_nat (row + 1)) by lia.
      cbn [firstn].
      destruct (Cell_eqb targetRow cell) eqn:Eeq.
      * rewrite IH by (auto; lia).
        destruct targetRow as [t|], cell as [o|]; simpl in Eeq;
          try discriminate.
        -- cbn [free_run]. rewrite <- (Hcompat _ _ Eeq), (Htarget t eq_refl).
           f_equal. lia.
        -- cbn [free_run]. f_equal. lia.
      * destruct cell as [o|].
        -- cbn [free_run]. destruct (blocks o) eqn:Eb.
           ++ f_equal. lia.
           ++ rewrite IH; [f_equal; lia|lia|lia|].
              intros t [= <-]. exact Eb.
        -- cbn [free_run]. rewrite IH; [f_equal; lia|lia|lia|].
           intros t [=].
    + replace (Z.to_nat (Z.min (ceil (c_height c) - res) (rowmax - row)))
        with O; [simpl; f_equal; lia|].
      apply andb_false_iff in Econd as [Hr|Hh].
      * apply Z.ltb_ge in Hr. lia.
      * destruct (Z.ltb_spec res (ceil (c_height c))) as [Hlt|Hge]; [|lia].
        apply res_lt_height in Hlt. congruence.
Qed.

Lemma TestFreeRows_run (rows : Rows) (c : Comment)
    (row width height bottomReserved : Z) (duration_marquee duration_still : Q)
    (lane : list Cell) :
  lane_of rows c = Ok lane ->
  0 <= row ->
  height - bottomReserved <= Z.of_nat (List.length lane) ->
  TestFreeRows rows c row width height bottomReserved
    duration_marquee duration_still
  = Ok (Z.of_nat
          (free_run (blocks_of width duration_marquee duration_still c)
             (scan_window lane row (height - bottomReserved) (c_height c)))).
Proof.
  intros Hlane Hrow Hlen. unfold TestFreeRows. cbv zeta.
  fold (blocks_of width duration_marquee duration_still c).
  rewrite (free_rows_loop_run _ rows c _ lane Hlane); try lia.
  - unfold scan_window. rewrite Z.sub_0_r. reflexivity.
  - intros x y. apply blocks_of_compat.
  - intros t [=].
Qed.

Lemma In_firstn {A : Type} (n : nat) (l : list A) (x : A) :
  In x (firstn n l) -> In x l.
Proof.
  revert l. induction n as [|n IH]; intros [|h t]; simpl; try tauto.
  intros [->|H]; auto.
Qed.

Lemma In_skipn {A : Type} (n : nat) (l : list A) (x : A) :
  In x (skipn n l) -> In x l.
Proof.
  revert l. induction n as [|n IH]; intros [|h t]; simpl; auto.
Qed.

Lemma In_scan_window (lane : list Cell) (row rowmax : Z) (h : Q) (x : Cell) :
  In x (scan_window lane row rowmax h) -> In x lane.
Proof.
  unfold scan_window. intros H. eapply In_skipn, In_firstn, H.
Qed.

Lemma free_run_ext (f g : Comment -> bool) (cells : list Cell) :
  (forall o, In (Some o) cells -> f o = g o) ->
  free_run f cells = free_run g cells.
Proof.
  induction cells as [|[o|] rest IH]; intros H; simpl; auto.
  - rewrite <- (H o) by (left; reflexivity).
    destruct (f o); [reflexivity|]. f_equal. apply IH.
    intros o' Ho'. apply H. right. exact Ho'.
  - f_equal. apply IH. intros o' Ho'. apply H. right. exact Ho'.
Qed.

Lemma Qeq_bool_false (x : Q) : ~ (x == 0)%Q -> Qeq_bool x 0 = false.
Proof.
  intros H. destruct (Qeq_bool x 0) eqn:E; [|reflexivity].
  apply Qeq_bool_iff in E. contradiction.
Qed.

Lemma Qeq_bool_true (x : Q) : (x == 0)%Q -> Qeq_bool x 0 = true.
Proof. apply Qeq_bool_iff. Qed.

Lemma marquee_blocks_rules (width : Z) (duration_marquee : Q) (c o : Comment) :
  ~ (c_width c + inject_Z width == 0)%Q ->
  ~ (c_width o + inject_Z width == 0)%Q ->
  marquee_blocks width duration_marquee c o
  = rule_a width duration_marquee c o || rule_b width duration_marquee c o.
Proof.
  intros Hc Ho.
  unfold marquee_blocks, marquee_cond, thresholdTime, truediv, rule_a, rule_b.
  rewrite (Qeq_bool_false _ Hc), (Qeq_bool_false _ Ho).
  destruct (Qltb _ (c_timeline o)); reflexivity.
Qed.

(** C1: for a scroll-mode comment (mode 0 or 3), with both denominators
    non-zero, an occupant [o] makes the scan stop exactly when rule (a) or
    rule (b) holds, and the result of [TestFreeRows] is the number of
    leading rows of the scanned window that are unoccupied or have both
    rules false. *)
Theorem TestFreeRows_scroll_rules (rows : Rows) (c : Comment)
    (row width height bottomReserved : Z) (duration_marquee duration_still : Q)
    (lane : list Cell) :
  c_pos c = PosInt 0 \/ c_pos c = PosInt 3 ->
  lane_of rows c = Ok lane ->
  0 <= row ->
  height - bottomReserved <= Z.of_nat (List.length lane) ->
  ~ (c_width c + inject_Z width == 0)%Q ->
  (forall o, In (Some o) lane -> ~ (c_width o + inject_Z width == 0)%Q) ->
  (forall o, In (Some o) lane ->
     blocks_of width duration_marquee duration_still c o
     = rule_a width duration_marquee c o || rule_b width duration_marquee c o)
  /\ TestFreeRows rows c row width height bottomReserved
       duration_marquee duration_still
     = Ok (Z.of_nat
             (free_run
                (fun o => rule_a width duration_marquee c o
                          || rule_b width duration_marquee c o)
                (scan_window lane row (height - bottomReserved) (c_height c)))).
Proof.
  intros Hpos Hlane Hrow Hlen Hc Ho.
  assert (Hstill : is_still c = false).
  { unfold is_still. destruct Hpos as [-> | ->]; reflexivity. }
  assert (Hrules : forall o, In (Some o) lane ->
            blocks_of width duration_marquee duration_still c o
            = rule_a width duration_marquee c o
              || rule_b width duration_marquee c o).
  { intros o Hin. unfold blocks_of. rewrite Hstill.
    apply marquee_blocks_rules; auto. }
  split; [exact Hrules|].
  rewrite (TestFreeRows_run _ _ _ _ _ _ _ _ lane) by assumption.
  do 2 f_equal. apply free_run_ext.
  intros o Hin. apply Hrules. eapply In_scan_window, Hin.
Qed.

Lemma TestFreeRows_scroll_rules_witness :
  let o := demo_comment 0 1 0 2 50 in
  let c := demo_comment 1 2 0 2 50 in
  let lane := [Some o; Some o; None; None; None] in
  let rows := [lane; repeat None 5; repeat None 5; repeat None 5] in
  rule_a 100 5 c o = true
  /\ TestFreeRows rows c 0 100 4 0 5 5 = Ok 0
  /\ TestFreeRows rows c 2 100 4 0 5 5 = Ok 2.
Proof.
  intros o c lane rows.
  assert (H : forall row, 0 <= row ->
            TestFreeRows rows c row 100 4 0 5 5
            = Ok (Z.of_nat
                    (free_run (fun o => rule_a 100 5 c o || rule_b 100 5 c o)
                       (scan_window lane row (4 - 0) (c_height c))))).
  { intros row Hrow.
    apply (TestFreeRows_scroll_rules rows c row 100 4 0 5 5 lane).
    - left. reflexivity.
    - reflexivity.
    - exact Hrow.
    - simpl. lia.
    - vm_compute. discriminate.
    - intros x [Hx|[Hx|[Hx|[Hx|[Hx|[]]]]]]; try discriminate Hx;
        injection Hx as <-; vm_compute; discriminate. }
  split; [reflexivity|]. split.
  - rewrite (H 0) by lia. reflexivity.
  - rewrite (H 2) by lia. reflexivity.
Defined.

(** ** Division by zero in the marquee test *)

(** C8, as stated, on a stage of width 0: the candidate and the occupant
    of row 0 both have width 0, so the arithmetic of rule (a) and of rule
    (b) divides by zero, yet row 0 is treated as blocking. *)
Lemma TestFreeRows_zero_width_blocks :
  let o := demo_comment 0 1 0 2 0 in
  let c := demo_comment 1 2 0 2 0 in
  exists rows,
    MarkCommentRow (new_rows 2 0) o 0 = Ok rows
    /\ truediv (inject_Z 0) (c_width c + inject_Z 0) = Raise ZeroDivisionError
    /\ truediv (c_width o * 5) (c_width o + inject_Z 0) = Raise ZeroDivisionError
    /\ (lane <- lane_of rows c ;; getitem lane 0) = Ok (Some o)
    /\ TestFreeRows rows c 0 0 2 0 5 5 = Ok 0.
Proof.
  intros o c. eexists. split; [vm_compute; reflexivity|].
  repeat split; reflexivity.
Qed.

Lemma thresholdTime_zero (width : Z) (duration_marquee : Q) (c : Comment) :
  (c_width c + inject_Z width == 0)%Q ->
  thresholdTime width duration_marquee c = (c_timeline c - duration_marquee)%Q.
Proof.
  intros H. unfold thresholdTime, truediv. rewrite (Qeq_bool_true _ H).
  reflexivity.
Qed.

Lemma marquee_blocks_zero (width : Z) (duration_marquee : Q) (c o : Comment) :
  (c_width o + inject_Z width == 0)%Q ->
  marquee_blocks width duration_marquee c o
  = Qltb (thresholdTime width duration_marquee c) (c_timeline o).
Proof.
  intros H. unfold marquee_blocks, marquee_cond, truediv.
  rewrite (Qeq_bool_true _ H).
  destruct (Qltb _ (c_timeline o)); reflexivity.
Qed.

(** The marquee test, whatever the denominators. *)
Lemma marquee_blocks_scroll (width : Z) (duration_marquee : Q) (c o : Comment) :
  marquee_blocks width duration_marquee c o
  = scroll_blocks width duration_marquee c o.
Proof.
  unfold marquee_blocks, marquee_cond, thresholdTime, truediv, scroll_blocks,
    zero_denominator, rule_a_fallback, rule_a, rule_b.
  destruct (Qeq_bool (c_width c + inject_Z width) 0);
    destruct (Qeq_bool (c_width o + inject_Z width) 0);
    cbn [Py.bind];
    match goal with
    | |- context [Qltb ?t (c_timeline o)] => destruct (Qltb t (c_timeline o))
    end; reflexivity.
Qed.

(** C8 (amended): a zero denominator never makes [TestFreeRows] raise, and
    it switches off rule (b) only.  Rule (a) applies to every occupant:
    with the threshold [c.time - duration_marquee] when the candidate's
    denominator is zero, with the usual one otherwise.  Rule (b) applies
    exactly to the occupants whose own denominator is not zero.  The scan
    continues and returns the free run under this test. *)
Theorem TestFreeRows_zero_division (rows : Rows) (c : Comment)
    (row width height bottomReserved : Z) (duration_marquee duration_still : Q)
    (lane : list Cell) :
  c_pos c = PosInt 0 \/ c_pos c = PosInt 3 ->
  lane_of rows c = Ok lane ->
  0 <= row ->
  height - bottomReserved <= Z.of_nat (List.length lane) ->
  ((c_width c + inject_Z width == 0)%Q ->
     thresholdTime width duration_marquee c
     = (c_timeline c - duration_marquee)%Q)
  /\ (forall o, (c_width o + inject_Z width == 0)%Q ->
        marquee_blocks width duration_marquee c o
        = Qltb (thresholdTime width duration_marquee c) (c_timeline o))
  /\ (forall o,
        (c_width c + inject_Z width == 0)%Q ->
        ~ (c_width o + inject_Z width == 0)%Q ->
        blocks_of width duration_marquee duration_still c o
        = rule_a_fallback duration_marquee c o
          || rule_b width duration_marquee c o)
  /\ (forall o,
        blocks_of width duration_marquee duration_still c o
        = scroll_blocks width duration_marquee c o)
  /\ TestFreeRows rows c row width height bottomReserved
       duration_marquee duration_still
     = Ok (Z.of_nat
             (free_run (scroll_blocks width duration_marquee c)
                (scan_window lane row (height - bottomReserved) (c_height c)))).
Proof.
  intros Hpos Hlane Hrow Hlen.
  assert (Hstill : is_still c = false).
  { unfold is_still. destruct Hpos as [-> | ->]; reflexivity. }
  assert (Hblocks : forall o,
            blocks_of width duration_marquee duration_still c o
            = scroll_blocks width duration_marquee c o).
  { intros o. unfold blocks_of. rewrite Hstill. apply marquee_blocks_scroll. }
  split; [apply thresholdTime_zero|].
  split; [intros o; apply marquee_blocks_zero|].
  split; [|split; [exact Hblocks|]].
  - intros o Hc Ho. rewrite Hblocks. unfold scroll_blocks, zero_denominator.
    rewrite (Qeq_bool_true _ Hc), (Qeq_bool_false _ Ho). reflexivity.
  - rewrite (TestFreeRows_run _ _ _ _ _ _ _ _ lane) by assumption.
    do 2 f_equal. apply free_run_ext. intros o _. apply Hblocks.
Qed.

Lemma TestFreeRows_zero_division_witness :
  let o := demo_comment 3 1 0 2 0 in
  let c := demo_comment 6 2 0 2 (-100) in
  let lane := [Some o; Some o; None] in
  let rows := [lane; repeat None 3; repeat None 3; repeat None 3] in
  thresholdTime 100 5 c = (6 - 5)%Q
  /\ rule_b 100 5 c o = false
  /\ blocks_of 100 5 5 c o = true
  /\ TestFreeRows rows c 0 100 2 0 5 5 = Ok 0.
Proof.
  intros o c lane rows.
  destruct (TestFreeRows_zero_division rows c 0 100 2 0 5 5 lane)
    as (Ht & _ & Hb & _ & Hrun).
  - left. reflexivity.
  - reflexivity.
  - lia.
  - simpl. lia.
  - split; [apply Ht; reflexivity|].
    split; [reflexivity|].
    split; [rewrite Hb; [reflexivity|reflexivity|discriminate]|].
    rewrite Hrun. reflexivity.
Defined.

(** ** The fallback row search *)

Lemma cell_at_getitem (lane : list Cell) (k : Z) (cell : Cell) :
  0 <= k -> cell_at lane k = Some cell -> getitem lane k = Ok cell.
Proof.
  intros Hk H. rewrite getitem_nonneg by exact Hk.
  unfold cell_at in H. rewrite H. reflexivity.
Qed.

Lemma alternative_loop_scan (rows : Rows) (c : Comment) (lane : list Cell) :
  lane_of rows c = Ok lane ->
  forall (n : nat) (row res : Z),
    0 <= row ->
    row + Z.of_nat n <= Z.of_nat (List.length lane) ->
    earliest_upto lane row res ->
    exists r,
      alternative_loop rows c n row res = Ok r
      /\ (first_empty lane (row + Z.of_nat n) r
          \/ earliest_upto lane (row + Z.of_nat n) r).
Proof.
  intros Hlane. induction n as [|n IH]; intros row res Hrow Hlen Hinv.
  - exists res. split; [reflexivity|]. right.
    replace (row + Z.of_nat 0) with row by lia. exact Hinv.
  - cbn [alternative_loop]. rewrite Hlane. cbn [Py.bind].
    destruct (getitem_cell lane row ltac:(lia)) as (cell & Hcell & Hget).
    rewrite Hget. cbn [Py.bind].
    destruct cell as [o|].
    + assert (Hnext : forall res', earliest_upto lane (row + 1) res' ->
                exists r,
                  alternative_loop rows c n (row + 1) res' = Ok r
                  /\ (first_empty lane (row + Z.of_nat (S n)) r
                      \/ earliest_upto lane (row + Z.of_nat (S n)) r)).
      { intros res' Hinv'.
        replace (row + Z.of_nat (S n)) with (row + 1 + Z.of_nat n) by lia.
        apply IH; [lia|lia|exact Hinv']. }
      destruct Hinv as [[-> ->]|(Hres & r & Hr & Hall)].
      * rewrite Hget. cbn [Py.bind].
        replace (Qltb (c_timeline o) (c_timeline o)) with false
          by (symmetry; apply Qltb_ge; apply Qle_refl).
        apply Hnext. right. split; [lia|].
        exists o. split; [exact Hcell|].
        intros k Hk. replace k with 0 by lia.
        exists o. split; [exact Hcell|]. split; [apply Qle_refl|lia].
      * rewrite (cell_at_getitem lane res (Some r) ltac:(lia) Hr). cbn [Py.bind].
        destruct (Qltb (c_timeline o) (c_timeline r)) eqn:Elt.
        -- apply Qltb_lt in Elt. apply Hnext. right. split; [lia|].
           exists o. split; [exact Hcell|].
           intros k Hk. destruct (Z.eq_dec k row) as [->|Hne].
           ++ exists o. split; [exact Hcell|]. split; [apply Qle_refl|lia].
           ++ destruct (Hall k ltac:(lia)) as (ok & Hok & Hle & _).
              exists ok. split; [exact Hok|].
              assert (Hs : (c_timeline o < c_timeline ok)%Q)
                by (eapply Qlt_le_trans; eauto).
              split; [apply Qlt_le_weak; exact Hs|intros _; exact Hs].
        -- apply Qltb_ge in Elt. apply Hnext. right. split; [lia|].
           exists r. split; [exact Hr|].
           intros k Hk. destruct (Z.eq_dec k row) as [->|Hne].
           ++ exists o. split; [exact Hcell|]. split; [exact Elt|lia].
           ++ apply Hall. lia.
    + exists row. split; [reflexivity|]. left.
      split; [lia|]. split; [exact Hcell|].
      intros k Hk. destruct Hinv as [[-> ->]|(_ & r & _ & Hall)]; [lia|].
      destruct (Hall k Hk) as (ok & Hok & _). exists ok. exact Hok.
Qed.

(** C2, as stated, in a state a run reaches: usable height 2, three
    one-row comments of mode 1 at times 0, 1 and 5.5 leave row 0 held by
    the comment of time 5.5 and row 1 by the comment of time 1.  For a
    fourth at time 5.8 the scan is exhausted; row 1 lies in [0, row_max]
    and holds the earliest occupant, yet row 0 is returned. *)
Lemma FindAlternativeRow_skips_row_max :
  let A := demo_comment 0 1 1 1 10 in
  let B := demo_comment 1 2 1 1 10 in
  let C := demo_comment (11 # 2) 3 1 1 10 in
  let D := demo_comment (29 # 5) 4 1 1 10 in
  let rows :=
    run_rows (ProcessComments demo_loads demo_str demo_int_of_str
                demo_float_of_str demo_flash 100 2 0 25 5 5 [] false
                [A; B; C]) in
  lane_of rows D = Ok [Some C; Some B; None]
  /\ find_row 100 2 0 5 5 rows D = Ok None
  /\ (inject_Z 1 <= inject_Z (2 - 0) - c_height D)%Q
  /\ (c_timeline B < c_timeline C)%Q
  /\ FindAlternativeRow rows D 2 0 = Ok 0.
Proof.
  cbv zeta. split; [vm_compute; reflexivity|].
  split; [vm_compute; reflexivity|].
  split; [vm_compute; discriminate|].
  split; [vm_compute; reflexivity|].
  vm_compute. reflexivity.
Qed.

(** C2 (amended): the fallback scans rows [0 .. n) for
    [n = usable_height - ceil(c.height)], so the last admissible start row
    is not scanned.  It returns the first empty row among them if there is
    one; otherwise the first row whose occupant has the minimum
    appearance time among the scanned rows; and row 0 when no row is
    scanned. *)
Theorem FindAlternativeRow_scan (rows : Rows) (c : Comment)
    (height bottomReserved : Z) (lane : list Cell) :
  let n := height - bottomReserved - ceil (c_height c) in
  lane_of rows c = Ok lane ->
  n <= Z.of_nat (List.length lane) ->
  exists r,
    FindAlternativeRow rows c height bottomReserved = Ok r
    /\ ((n <= 0 /\ r = 0)
        \/ first_empty lane n r
        \/ (0 < n /\ earliest_upto lane n r)).
Proof.
  intros n Hlane Hlen. unfold FindAlternativeRow. fold n.
  destruct (alternative_loop_scan rows c lane Hlane (Z.to_nat n) 0 0)
    as (r & Hr & Hpost); [lia|lia|left; auto|].
  exists r. split; [exact Hr|].
  destruct (Z.leb_spec n 0) as [Hn|Hn].
  - left. split; [exact Hn|].
    replace (Z.to_nat n) with O in Hr by lia. simpl in Hr. congruence.
  - right. replace (0 + Z.of_nat (Z.to_nat n)) with n in Hpost by lia.
    destruct Hpost as [He|He]; [left; exact He|right; split; [exact Hn|exact He]].
Qed.

Lemma FindAlternativeRow_scan_witness :
  let B := demo_comment 1 2 1 1 10 in
  let C := demo_comment (11 # 2) 3 1 1 10 in
  let D := demo_comment (29 # 5) 4 1 1 10 in
  let lane := [Some C; Some B; Some C; None] in
  let rows := [repeat None 4; lane; repeat None 4; repeat None 4] in
  exists r,
    FindAlternativeRow rows D 3 0 = Ok r
    /\ ((3 - 0 - ceil (c_height D) <= 0 /\ r = 0)
        \/ first_empty lane (3 - 0 - ceil (c_height D)) r
        \/ (0 < 3 - 0 - ceil (c_height D)
            /\ earliest_upto lane (3 - 0 - ceil (c_height D)) r)).
Proof.
  intros B C D lane rows.
  apply (FindAlternativeRow_scan rows D 3 0 lane).
  - reflexivity.
  - vm_compute. discriminate.
Defined.

(** ** Totality of the lane operations *)

Lemma getitem_exn {A : Type} (l : list A) (i : Z) (e : exn) :
  getitem l i = Raise e -> e = IndexError.
Proof.
  unfold getitem. destruct (norm_index _ i); [|congruence].
  destruct (nth_error l n); congruence.
Qed.

Lemma setitem_exn {A : Type} (l : list A) (i : Z) (a : A) (e : exn) :
  setitem l i a = Raise e -> e = IndexError.
Proof.
  unfold setitem. destruct (norm_index _ i); congruence.
Qed.

Lemma mark_cell_exn (rows : Rows) (c : Comment) (i m : Z) (e : exn) :
  c_pos c = PosInt m -> mark_cell rows c i = Raise e -> e = IndexError.
Proof.
  intros Hpos. unfold mark_cell. rewrite Hpos.
  destruct (getitem rows m) as [lane|e1] eqn:E1; cbn [Py.bind].
  - destruct (setitem lane i (Some c)) as [lane'|e2] eqn:E2; cbn [Py.bind].
    + apply setitem_exn.
    + intros [= <-]. eapply setitem_exn; eauto.
  - intros [= <-]. eapply getitem_exn; eauto.
Qed.

Lemma mark_loop_total (c : Comment) (m : Z) (n : nat) :
  c_pos c = PosInt m ->
  forall (rows : Rows) (i : Z), exists rows', mark_loop rows c n i = Ok rows'.
Proof.
  intros Hpos. induction n as [|n IH]; intros rows i; simpl.
  - eauto.
  - destruct (mark_cell rows c i) as [r|e] eqn:E.
    + apply IH.
    + rewrite (mark_cell_exn _ _ _ _ _ Hpos E). eauto.
Qed.

Lemma lane_of_shape (N : nat) (rows : Rows) (c : Comment) (m : Z) :
  grid_shape N rows -> c_pos c = PosInt m -> 0 <= m < 4 ->
  exists lane, lane_of rows c = Ok lane /\ List.length lane = N.
Proof.
  intros [Hl Hf] Hpos Hm. unfold lane_of. rewrite Hpos.
  rewrite getitem_nonneg by lia.
  destruct (nth_error rows (Z.to_nat m)) as [lane|] eqn:E.
  - exists lane. split; [reflexivity|].
    rewrite Forall_forall in Hf. apply Hf. eapply nth_error_In; eauto.
  - apply nth_error_None in E. lia.
Qed.

Lemma lane_of_length (N : nat) (rows : Rows) (c : Comment) (lane : list Cell) :
  grid_shape N rows -> lane_of rows c = Ok lane -> List.length lane = N.
Proof.
  intros [_ Hf] H. unfold lane_of in H.
  destruct (c_pos c); [|discriminate].
  rewrite Forall_forall in Hf. apply Hf. eapply getitem_In; eauto.
Qed.

Lemma free_rows_loop_ge (blocks : Comment -> bool) (rows : Rows) (c : Comment)
    (rowmax : Z) (fuel : nat) :
  forall (row res : Z) (targetRow : Cell) (f : Z),
    free_rows_loop blocks rows c rowmax fuel row res targetRow = Ok f ->
    res <= f.
Proof.
  induction fuel as [|fuel IH]; intros row res targetRow f H; simpl in H.
  - injection H as <-. lia.
  - destruct ((row <? rowmax) && Qltb (inject_Z res) (c_height c)).
    + destruct (lane_of rows c) as [lane|]; [|discriminate]. cbn [Py.bind] in H.
      destruct (getitem lane row) as [cell|]; [|discriminate].
      cbn [Py.bind] in H.
      destruct (Cell_eqb targetRow cell).
      * apply IH in H. lia.
      * destruct cell as [o|].
        -- destruct (blocks o).
           ++ injection H as <-. lia.
           ++ apply IH in H. lia.
        -- apply IH in H. lia.
    + injection H as <-. lia.
Qed.

Lemma TestFreeRows_nonneg (rows : Rows) (c : Comment)
    (row width height bottomReserved : Z) (duration_marquee duration_still : Q)
    (f : Z) :
  TestFreeRows rows c row width height bottomReserved
    duration_marquee duration_still = Ok f ->
  0 <= f.
Proof. apply free_rows_loop_ge. Qed.

Section Scan.

Variables (width height bottomReserved : Z).
Variables (duration_marquee duration_still : Q).

Let usable := height - bottomReserved.

Lemma find_row_loop_some (rows : Rows) (c : Comment) (fuel : nat) :
  forall (row row' : Z),
    0 <= row ->
    find_row_loop width height bottomReserved duration_marquee duration_still
      rows c fuel row = Ok (Some row') ->
    0 <= row'
    /\ exists f,
         TestFreeRows rows c row' width height bottomReserved
           duration_marquee duration_still = Ok f
         /\ (c_height c <= inject_Z f)%Q.
Proof.
  induction fuel as [|fuel IH]; intros row row' Hrow H; simpl in H.
  - discriminate.
  - destruct (Qle_bool (inject_Z row) _); [|discriminate].
    destruct (TestFreeRows rows c row width height bottomReserved
                duration_marquee duration_still) as [f|] eqn:E;
      [|discriminate].
    cbn [Py.bind] in H.
    destruct (Qle_bool (c_height c) (inject_Z f)) eqn:Ef.
    + injection H as <-. split; [exact Hrow|].
      exists f. split; [exact E|]. apply Qle_bool_iff. exact Ef.
    + apply TestFreeRows_nonneg in E.
      apply IH in H; [exact H|].
      destruct (f =? 0); lia.
Qed.

Lemma find_row_loop_total (N : nat) (rows : Rows) (c : Comment) (m : Z)
    (fuel : nat) :
  grid_shape N rows -> usable <= Z.of_nat N ->
  c_pos c = PosInt m -> 0 <= m < 4 ->
  forall row, 0 <= row ->
    exists r,
      find_row_loop width height bottomReserved duration_marquee
        duration_still rows c fuel row = Ok r.
Proof.
  intros Hs HN Hpos Hm.
  destruct (lane_of_shape N rows c m Hs Hpos Hm) as (lane & Hlane & Hlen).
  induction fuel as [|fuel IH]; intros row Hrow; simpl.
  - eauto.
  - destruct (Qle_bool (inject_Z row) _); [|eauto].
    rewrite (TestFreeRows_run rows c row width height bottomReserved
               duration_marquee duration_still lane Hlane Hrow)
      by (fold usable; lia).
    cbn [Py.bind].
    destruct (Qle_bool (c_height c) _); [eauto|].
    apply IH. destruct (_ =? 0); lia.
Qed.

Lemma find_row_none_height (rows : Rows) (c : Comment) :
  find_row width height bottomReserved duration_marquee duration_still rows c
    = Ok None ->
  (inject_Z usable < c_height c)%Q \/ (0 < c_height c)%Q.
Proof.
  unfold find_row. cbv zeta. fold usable.
  set (rowmax := (inject_Z usable - c_height c)%Q).
  destruct (Z.to_nat (Qfloor rowmax + 1)) as [|fuel] eqn:Efuel.
  - intros _. left.
    assert (Hf : Qfloor rowmax + 1 <= 0) by lia.
    pose proof (Qlt_floor rowmax) as Hlt.
    assert (Hle : (inject_Z (Qfloor rowmax + 1) <= inject_Z 0)%Q)
      by (rewrite <- Zle_Qle; exact Hf).
    unfold rowmax in *. change (inject_Z 0) with 0%Q in Hle. Lqa.lra.
  - cbn [find_row_loop]. fold usable. fold rowmax.
    destruct (Qle_bool (inject_Z 0) rowmax) eqn:Ele.
    + destruct (TestFreeRows rows c 0 width height bottomReserved
                  duration_marquee duration_still) as [f|] eqn:E;
        [|discriminate].
      cbn [Py.bind].
      destruct (Qle_bool (c_height c) (inject_Z f)) eqn:Ef; [discriminate|].
      intros _. right. apply TestFreeRows_nonneg in E.
      assert (Hlt : (inject_Z f < c_height c)%Q).
      { apply Qnot_le_lt. intros Hle. apply Qle_bool_iff in Hle. congruence. }
      assert (H0 : (inject_Z 0 <= inject_Z f)%Q) by (rewrite <- Zle_Qle; exact E).
      change (inject_Z 0) with 0%Q in H0. Lqa.lra.
    + intros _. left.
      assert (Hlt : (rowmax < inject_Z 0)%Q).
      { apply Qnot_le_lt. intros Hle. apply Qle_bool_iff in Hle. congruence. }
      unfold rowmax in Hlt. change (inject_Z 0) with 0%Q in Hlt. Lqa.lra.
Qed.

Lemma FindAlternativeRow_total (N : nat) (rows : Rows) (c : Comment) (m : Z) :
  grid_shape N rows -> usable <= Z.of_nat N ->
  c_pos c = PosInt m -> 0 <= m < 4 ->
  find_row width height bottomReserved duration_marquee duration_still rows c
    = Ok None ->
  exists r, FindAlternativeRow rows c height bottomReserved = Ok r.
Proof.
  intros Hs HN Hpos Hm Hnone.
  destruct (lane_of_shape N rows c m Hs Hpos Hm) as (lane & Hlane & Hlen).
  unfold FindAlternativeRow.
  destruct (alternative_loop_scan rows c lane Hlane
              (Z.to_nat (height - bottomReserved - ceil (c_height c))) 0 0)
    as (r & Hr & _); [lia| |left; auto|eauto].
  fold usable. rewrite Hlen.
  apply find_row_none_height in Hnone. unfold ceil.
  pose proof (Qle_ceiling (c_height c)) as Hc.
  destruct Hnone as [Hlt|Hpos'].
  - assert (H : (inject_Z usable < inject_Z (Qceiling (c_height c)))%Q)
      by (eapply Qlt_le_trans; eauto).
    rewrite <- Zlt_Qlt in H. lia.
  - assert (H : (inject_Z 0 < inject_Z (Qceiling (c_height c)))%Q)
      by (eapply Qlt_le_trans; eauto).
    rewrite <- Zlt_Qlt in H. lia.
Qed.

End Scan.

(** ** Conversion of the timestamps *)

Lemma infinite_false (x : Q) : (Qabs x < float_limit)%Q -> infinite x = false.
Proof.
  intros H. unfold infinite.
  destruct (Qle_bool float_limit (Qabs x)) eqn:E; [|reflexivity].
  apply Qle_bool_iff in E. exfalso. apply (Qlt_not_le _ _ H). exact E.
Qed.

Lemma infinite_true (x : Q) : ~ (Qabs x < float_limit)%Q -> infinite x = true.
Proof.
  intros H. unfold infinite.
  destruct (Qle_bool float_limit (Qabs x)) eqn:E; [reflexivity|].
  exfalso. apply H. apply Qnot_le_lt. intros Hle.
  apply Qle_bool_iff in Hle. congruence.
Qed.

Lemma converts_dec (t : Q) : {converts t} + {~ converts t}.
Proof.
  unfold converts.
  destruct (Qlt_le_dec (Qabs (t * 100)) float_limit) as [H|H].
  - left. exact H.
  - right. apply Qle_not_lt. exact H.
Qed.

Lemma ConvertTimestamp_call_ok (t : Q) :
  converts t -> ConvertTimestamp_call t = Ok (ConvertTimestamp t).
Proof.
  intros H. unfold ConvertTimestamp_call, round_call.
  rewrite infinite_false; auto.
Qed.

Lemma ConvertTimestamp_call_raise (t : Q) :
  ~ converts t -> ConvertTimestamp_call t = Raise OverflowError.
Proof.
  intros H. unfold ConvertTimestamp_call, round_call.
  rewrite infinite_true; auto.
Qed.

Lemma position_style_duration (c : Comment) (row width height bottomReserved : Z)
    (duration_marquee duration_still : Q) :
  snd (position_style c row width height bottomReserved
         duration_marquee duration_still)
  = duration_of duration_marquee duration_still c.
Proof.
  unfold position_style, duration_of, is_still, pos_is.
  destruct (c_pos c) as [m|s]; [|reflexivity].
  destruct (m =? 1); [reflexivity|].
  destruct (m =? 2); [reflexivity|].
  destruct (m =? 3); reflexivity.
Qed.

(** A call of [WriteComment] returns its line when both timestamps convert
    and raises [OverflowError] otherwise, whatever the row. *)
Lemma WriteComment_call_cases (c : Comment) (row width height bottomReserved : Z)
    (fontsize duration_marquee duration_still : Q) :
  (timestamps_convert duration_marquee duration_still c
   /\ WriteComment_call c row width height bottomReserved fontsize
        duration_marquee duration_still
      = Ok (WriteComment c row width height bottomReserved fontsize
              duration_marquee duration_still))
  \/ (~ timestamps_convert duration_marquee duration_still c
      /\ WriteComment_call c row width height bottomReserved fontsize
           duration_marquee duration_still
         = Raise OverflowError).
Proof.
  unfold WriteComment_call, timestamps_convert.
  pose proof (position_style_duration c row width height bottomReserved
                duration_marquee duration_still) as Hd.
  destruct (position_style c row width height bottomReserved
              duration_marquee duration_still) as [style duration].
  cbn [snd] in Hd. subst duration.
  destruct (converts_dec (c_timeline c)) as [H0|H0].
  - rewrite (ConvertTimestamp_call_ok _ H0). cbn [Py.bind].
    destruct (converts_dec
                (c_timeline c + duration_of duration_marquee duration_still c))
      as [H1|H1].
    + rewrite (ConvertTimestamp_call_ok _ H1). cbn [Py.bind]. left. auto.
    + rewrite (ConvertTimestamp_call_raise _ H1). cbn [Py.bind].
      right. split; [tauto|reflexivity].
  - rewrite (ConvertTimestamp_call_raise _ H0). cbn [Py.bind].
    right. split; [tauto|reflexivity].
Qed.

Lemma WriteComment_call_ok (c : Comment) (row width height bottomReserved : Z)
    (fontsize duration_marquee duration_still : Q) :
  timestamps_convert duration_marquee duration_still c ->
  WriteComment_call c row width height bottomReserved fontsize
    duration_marquee duration_still
  = Ok (WriteComment c row width height bottomReserved fontsize
          duration_marquee duration_still).
Proof.
  intros H.
  destruct (WriteComment_call_cases c row width height bottomReserved fontsize
              duration_marquee duration_still) as [[_ E]|[Hn _]];
    [exact E|contradiction].
Qed.

Lemma WriteComment_call_raise (c : Comment) (row width height bottomReserved : Z)
    (fontsize duration_marquee duration_still : Q) :
  ~ timestamps_convert duration_marquee duration_still c ->
  WriteComment_call c row width height bottomReserved fontsize
    duration_marquee duration_still
  = Raise OverflowError.
Proof.
  intros H.
  destruct (WriteComment_call_cases c row width height bottomReserved fontsize
              duration_marquee duration_still) as [[Hc _]|[_ E]];
    [contradiction|exact E].
Qed.

(** ** Reduced and strict runs *)

Ltac step_facts :=
  split; [reflexivity|]; split; [assumption|]; split; [cbn; lia|];
  split; intros; try discriminate; reflexivity.

Lemma count_lines_app (a b : list Out) :
  count_lines (a ++ b) = (count_lines a + count_lines b)%nat.
Proof. unfold count_lines. rewrite filter_app, length_app. reflexivity. Qed.

Section Runs.

Variable json_loads : string -> option json.
Variable py_str : json -> string.
Variable int_of_str : string -> option Z.
Variable float_of_str : string -> option Q.
Variable flash : Z -> Z -> Q -> Q -> Z -> Z -> RotArg.
Variables (width height bottomReserved : Z).
Variables (fontsize duration_marquee duration_still : Q).
Variable filters_regex : list (string -> bool).

Let usable := height - bottomReserved.
Let N := Z.to_nat (usable + 1).
Let step := process_comment json_loads py_str int_of_str float_of_str flash
              width height bottomReserved fontsize duration_marquee
              duration_still filters_regex.
Let loop := process_loop json_loads py_str int_of_str float_of_str flash
              width height bottomReserved fontsize duration_marquee
              duration_still filters_regex.
Let filtered (c : Comment) : bool :=
  existsb (fun filter_regex => filter_regex (c_comment c)) filters_regex.
Let writable (c : Comment) : Prop :=
  timestamps_convert duration_marquee duration_still c.

(** Marking succeeds for a lane comment; what follows is the call of
    [WriteComment]. *)
Lemma write_at_marks (rows : Rows) (c : Comment) (m row : Z) (forced : bool) :
  grid_shape N rows -> c_pos c = PosInt m ->
  exists rows',
    write_at width height bottomReserved fontsize duration_marquee
      duration_still rows c row forced
    = (rows',
       ev <- WriteComment_call c row width height bottomReserved fontsize
               duration_marquee duration_still ;;
       Ok [OutComment c row forced ev])
    /\ grid_shape N rows'.
Proof.
  intros Hs Hpos. unfold write_at, MarkCommentRow.
  destruct (mark_loop_total c m (Z.to_nat (ceil (c_height c))) Hpos rows row)
    as (rows' & Hm).
  rewrite Hm. exists rows'. split; [reflexivity|].
  eapply mark_loop_shape; eauto.
Qed.

Lemma write_at_total (rows : Rows) (c : Comment) (m row : Z) (forced : bool) :
  grid_shape N rows -> c_pos c = PosInt m -> writable c ->
  exists rows',
    write_at width height bottomReserved fontsize duration_marquee
      duration_still rows c row forced
    = (rows',
       Ok [OutComment c row forced
             (WriteComment c row width height bottomReserved fontsize
                duration_marquee duration_still)])
    /\ grid_shape N rows'.
Proof.
  intros Hs Hpos Hw.
  destruct (write_at_marks rows c m row forced Hs Hpos) as (rows' & E & Hs').
  exists rows'. split; [|exact Hs'].
  rewrite E, (WriteComment_call_ok _ _ _ _ _ _ _ _ Hw). reflexivity.
Qed.


(** A lane comment whose timestamps convert never aborts the run; it
    writes at most one line, and exactly one in a strict run unless it is
    filtered out. *)
Lemma lane_step (reduced : bool) (rows : Rows) (c : Comment) (m : Z) :
  grid_shape N rows -> c_pos c = PosInt m -> 0 <= m < 4 ->
  (filtered c = false -> writable c) ->
  exists rows' o,
    step reduced rows c = (rows', Ok o)
    /\ grid_shape N rows'
    /\ (count_lines o <= 1)%nat
    /\ (filtered c = true -> o = [])
    /\ (filtered c = false -> reduced = false -> count_lines o = 1%nat).
Proof.
  intros Hs Hpos Hm Hw. unfold step, process_comment. rewrite Hpos.
  fold (filtered c). destruct (filtered c) eqn:Ef.
  - exists rows, []. step_facts.
  - specialize (Hw eq_refl).
    assert (HN : usable <= Z.of_nat N) by (unfold N; lia).
    destruct (find_row_loop_total width height bottomReserved duration_marquee
                duration_still N rows c m
                (Z.to_nat (Qfloor (inject_Z (height - bottomReserved)
                                   - c_height c) + 1))
                Hs HN Hpos Hm 0 ltac:(lia)) as (r & Hr).
    unfold find_row. cbv zeta. rewrite Hr.
    destruct r as [row|].
    + destruct (write_at_total rows c m row false Hs Hpos Hw)
        as (rows' & E & Hs').
      rewrite E. eexists rows', _. step_facts.
    + destruct reduced; cbn [negb].
      * exists rows, []. step_facts.
      * destruct (FindAlternativeRow_total width height bottomReserved
                    duration_marquee duration_still N rows c m Hs HN Hpos Hm)
          as (row & Hrow); [exact Hr|].
        rewrite Hrow.
        destruct (write_at_total rows c m row true Hs Hpos Hw)
          as (rows' & E & Hs').
        rewrite E. eexists rows', _. step_facts.
Qed.




End Runs.




(** ** Effect of marking *)

Lemma updated_refl (c : Comment) (rows : Rows) : updated c rows rows.
Proof. intros c' lane1 H. exists lane1. auto. Qed.

Lemma updated_trans (c : Comment) (r1 r2 r3 : Rows) :
  updated c r1 r2 -> updated c r2 r3 -> updated c r1 r3.
Proof.
  intros H12 H23 c' lane1 H1.
  destruct (H12 c' lane1 H1) as (lane2 & H2 & Hl2 & Hc2).
  destruct (H23 c' lane2 H2) as (lane3 & H3 & Hl3 & Hc3).
  exists lane3. split; [exact H3|]. split; [congruence|].
  intros k. destruct (Hc3 k) as [E|E]; [|right; exact E].
  rewrite E. apply Hc2.
Qed.

Lemma getitem_inv {A : Type} (l : list A) (i : Z) (a : A) :
  getitem l i = Ok a ->
  exists j, norm_index (List.length l) i = Some j /\ nth_error l j = Some a.
Proof.
  unfold getitem. destruct (norm_index _ i) as [j|]; [|discriminate].
  destruct (nth_error l j) eqn:E; [|discriminate].
  intros [= <-]. eauto.
Qed.

Lemma getitem_set_nth {A : Type} (l : list A) (j : nat) (a : A) (i : Z) :
  (j < List.length l)%nat ->
  getitem (set_nth l j a) i
  = match norm_index (List.length l) i with
    | Some j' => if Nat.eqb j j' then Ok a else getitem l i
    | None => Raise IndexError
    end.
Proof.
  intros Hj. unfold getitem. rewrite set_nth_length.
  destruct (norm_index _ i) as [j'|]; [|reflexivity].
  destruct (Nat.eqb_spec j j') as [<-|Hne].
  - rewrite nth_error_set_nth_eq by exact Hj. reflexivity.
  - rewrite nth_error_set_nth_neq by exact Hne. reflexivity.
Qed.





(** ** A successful scan *)

Lemma free_run_le (blocks : Comment -> bool) (cells : list Cell) :
  (free_run blocks cells <= List.length cells)%nat.
Proof.
  induction cells as [|[o|] rest IH]; simpl; try lia.
  destruct (blocks o); lia.
Qed.

Lemma free_run_full (blocks : Comment -> bool) (cells : list Cell) :
  free_run blocks cells = List.length cells ->
  forall j cell, nth_error cells j = Some cell ->
    match cell with
    | Some o => blocks o = false
    | None => True
    end.
Proof.
  induction cells as [|[o|] rest IH]; simpl; intros Hfull j cell Hj.
  - destruct j; discriminate.
  - destruct (blocks o) eqn:Eb; [discriminate|].
    destruct j as [|j]; simpl in Hj.
    + injection Hj as <-. exact Eb.
    + eapply IH; eauto.
  - destruct j as [|j]; simpl in Hj.
    + injection Hj as <-. exact I.
    + eapply IH; eauto.
Qed.

Lemma ceil_le_of_le (h : Q) (f : Z) : (h <= inject_Z f)%Q -> ceil h <= f.
Proof.
  intros H. unfold ceil. rewrite <- (Qceiling_Z f).
  apply Qceiling_resp_le. exact H.
Qed.

Lemma TestFreeRows_fits (N : nat) (rows : Rows) (c : Comment)
    (row width height bottomReserved : Z) (duration_marquee duration_still : Q)
    (f : Z) :
  grid_shape N rows -> height - bottomReserved <= Z.of_nat N ->
  0 <= row ->
  TestFreeRows rows c row width height bottomReserved
    duration_marquee duration_still = Ok f ->
  (c_height c <= inject_Z f)%Q ->
  0 < ceil (c_height c) ->
  exists lane,
    lane_of rows c = Ok lane
    /\ row + ceil (c_height c) <= height - bottomReserved
    /\ forall k, occupies c row k ->
         exists cell,
           cell_at lane k = Some cell
           /\ match cell with
              | Some o =>
                  blocks_of width duration_marquee duration_still c o = false
              | None => True
              end.
Proof.
  intros Hs HN Hrow Htest Hfit Hpos.
  apply ceil_le_of_le in Hfit.
  destruct (lane_of rows c) as [lane|e] eqn:Hlane.
  - exists lane. split; [reflexivity|].
    pose proof (lane_of_length N rows c lane Hs Hlane) as Hlen.
    rewrite (TestFreeRows_run rows c row width height bottomReserved
               duration_marquee duration_still lane Hlane Hrow) in Htest
      by lia.
    injection Htest as Hf.
    set (blocks := blocks_of width duration_marquee duration_still c) in *.
    set (window := scan_window lane row (height - bottomReserved) (c_height c))
      in *.
    pose proof (free_run_le blocks window) as Hle.
    assert (Hwlen : List.length window
                    = Nat.min (Z.to_nat (Z.min (ceil (c_height c))
                                           (height - bottomReserved - row)))
                        (List.length lane - Z.to_nat row)).
    { unfold window, scan_window. rewrite length_firstn, length_skipn.
      reflexivity. }
    assert (Hfull : free_run blocks window = List.length window) by lia.
    split; [lia|].
    intros k Hk. unfold occupies in Hk.
    assert (Hj : (Z.to_nat (k - row) < List.length window)%nat) by lia.
    destruct (nth_error window (Z.to_nat (k - row))) as [cell|] eqn:Ecell.
    + exists cell. split.
      * unfold window, scan_window in Ecell.
        rewrite nth_error_firstn, nth_error_skipn in Ecell.
        destruct (Nat.ltb_spec (Z.to_nat (k - row))
                    (Z.to_nat (Z.min (ceil (c_height c))
                                 (height - bottomReserved - row))));
          [|discriminate].
        unfold cell_at. rewrite <- Ecell. f_equal. lia.
      * eapply free_run_full; eauto.
    + apply nth_error_None in Ecell. lia.
  - exfalso. unfold TestFreeRows in Htest. cbv zeta in Htest.
    destruct (Z.to_nat (height - bottomReserved - row)) as [|fuel];
      cbn [free_rows_loop] in Htest.
    + injection Htest as <-. lia.
    + destruct ((row <? height - bottomReserved)
                && Qltb (inject_Z 0) (c_height c)).
      * rewrite Hlane in Htest. discriminate.
      * injection Htest as <-. lia.
Qed.




(** ** Exact effect of marking *)




(** ** Still comments never overlap in a run without fallback *)







Section NoOverlap.

Variable json_loads : string -> option json.
Variable py_str : json -> string.
Variable int_of_str : string -> option Z.
Variable float_of_str : string -> option Q.
Variable flash : Z -> Z -> Q -> Q -> Z -> Z -> RotArg.
Variables (width height bottomReserved : Z).
Variables (fontsize duration_marquee duration_still : Q).
Variable filters_regex : list (string -> bool).
Variable reduced : bool.

Let usable := height - bottomReserved.
Let N := Z.to_nat (usable + 1).
Let step := process_comment json_loads py_str int_of_str float_of_str flash
              width height bottomReserved fontsize duration_marquee
              duration_still filters_regex reduced.
Let loop := process_loop json_loads py_str int_of_str float_of_str flash
              width height bottomReserved fontsize duration_marquee
              duration_still filters_regex reduced.





(** The same without an order on the comments, for lane modes 0 to 3:
    a still comment passes the test only against occupants whose window
    has ended, so each cell is handed on in ascending time. *)






End NoOverlap.








(** ** Malformed positioned payloads *)

Section PositionedErrors.

Variable json_loads : string -> option json.
Variable py_str : json -> string.
Variable int_of_str : string -> option Z.
Variable float_of_str : string -> option Q.
Variable flash : Z -> Z -> Q -> Q -> Z -> Z -> RotArg.

Let writer := WriteCommentBilibiliPositioned json_loads py_str int_of_str
                float_of_str flash.

(** An undecodable payload is dropped with a warning. *)
Lemma positioned_undecodable_dropped (c : Comment) (width height : Z) :
  json_loads (c_comment c) = None ->
  writer c width height = Ok (Warning (c_comment c)).
Proof.
  intros H. unfold writer, WriteCommentBilibiliPositioned, positioned_try.
  rewrite H. reflexivity.
Qed.

(** A payload with fewer than five elements is dropped with a warning. *)
Lemma positioned_short_dropped (c : Comment) (width height : Z) (l : list json) :
  json_loads (c_comment c) = Some (JList l) ->
  (List.length l < 5)%nat ->
  writer c width height = Ok (Warning (c_comment c)).
Proof.
  intros H Hl. unfold writer, WriteCommentBilibiliPositioned, positioned_try.
  rewrite H. cbn [Py.bind safe_list].
  rewrite getitem_nonneg by lia.
  destruct (nth_error l (Z.to_nat 4)) eqn:E; [|reflexivity].
  assert (Hn : nth_error l (Z.to_nat 4) <> None) by congruence.
  apply nth_error_Some in Hn. lia.
Qed.

(** A payload that is not a sequence escapes the [except] clause. *)
Lemma positioned_null_payload_raises (c : Comment) (width height : Z) :
  json_loads (c_comment c) = Some JNull ->
  writer c width height = Raise TypeError.
Proof.
  intros H. unfold writer, WriteCommentBilibiliPositioned, positioned_try.
  rewrite H. reflexivity.
Qed.

(** A [null] start coordinate fails [int(InputPos)] with [TypeError], which
    escapes both the inner [except ValueError] and the outer clause. *)
Lemma positioned_null_position_raises (c : Comment) (width height : Z)
    (a1 a2 a3 a4 : json) (rest : list json) :
  json_loads (c_comment c) = Some (JList (JNull :: a1 :: a2 :: a3 :: a4 :: rest)) ->
  writer c width height = Raise TypeError.
Proof.
  intros H. unfold writer, WriteCommentBilibiliPositioned, positioned_try.
  rewrite H. cbn [Py.bind safe_list].
  rewrite getitem_nonneg by lia. reflexivity.
Qed.

End PositionedErrors.

(** C5 at a malformed payload the writer does not survive: the positioned
    comment [[null,0,1,1,5]] has a [null] start coordinate; the run ends
    with [TypeError], no line is written and the lane comment after it is
    never processed.  With an undecodable payload in its place the run
    completes and the lane comment is written. *)
Theorem ProcessComments_aborts_on_null_position :
  let P := mkComment 0 0 0 "[null,0,1,1,5]" (PosStr "bilipos") 16777215 25 0 0 in
  let U := mkComment 0 0 0 "oops" (PosStr "bilipos") 16777215 25 0 0 in
  let A := demo_comment 1 1 0 1 10 in
  let run comments :=
    ProcessComments demo_loads demo_str demo_int_of_str demo_float_of_str
      demo_flash 100 2 0 25 5 5 [] false comments in
  run_exn (run [P; A]) = Some TypeError
  /\ run_out (run [P; A]) = []
  /\ run_exn (run [U; A]) = None
  /\ count_lines (run_out (run [U; A])) = 1%nat
  /\ In (OutPositioned U (Warning "oops")) (run_out (run [U; A])).
Proof.
  cbv zeta. split; [vm_compute; reflexivity|].
  split; [vm_compute; reflexivity|].
  split; [vm_compute; reflexivity|].
  split; [vm_compute; reflexivity|].
  left. vm_compute. reflexivity.
Qed.

(** * Further properties of the code *)

(** ** ConvertTimestamp *)

Lemma round_nonneg (x : Q) : (0 <= x)%Q -> 0 <= round x.
Proof.
  intros H.
  assert (Hf : 0 <= Qfloor x).
  { rewrite <- (Qfloor_Z 0). apply Qfloor_resp_le. exact H. }
  unfold round. destruct (x - inject_Z (Qfloor x) ?= 1 # 2)%Q; try lia.
  destruct (Z.even (Qfloor x)); lia.
Qed.

(** X1: the four fields of a timestamp recompose to the rounded number of
    centiseconds; minutes and seconds are below 60 and centiseconds below
    100 for every input, and the hour is not negative for a non-negative
    time. *)
Theorem ConvertTimestamp_fields (timestamp : Q) :
  let '(hour, minute, second, centsecond) := ConvertTimestamp timestamp in
  hour * 360000 + minute * 6000 + second * 100 + centsecond
    = round (timestamp * 100)
  /\ 0 <= minute < 60
  /\ 0 <= second < 60
  /\ 0 <= centsecond < 100
  /\ ((0 <= timestamp)%Q -> 0 <= hour).
Proof.
  unfold ConvertTimestamp. cbv zeta.
  set (ts := round (timestamp * 100)).
  assert (Hts : (0 <= timestamp)%Q -> 0 <= ts).
  { intros H. apply round_nonneg.
    apply Qmult_le_0_compat; [exact H|discriminate]. }
  repeat split; try (Z.to_euclidean_division_equations; lia).
  intros H. apply Hts in H. Z.to_euclidean_division_equations. lia.
Qed.

Lemma ConvertTimestamp_fields_witness :
  ConvertTimestamp (7323 # 2) = (1, 1, 1, 50) /\ 0 <= 1.
Proof.
  pose proof (ConvertTimestamp_fields (7323 # 2)) as H.
  destruct (ConvertTimestamp (7323 # 2)) as [[[h m] s] cs] eqn:E.
  destruct H as (_ & _ & _ & _ & Hh).
  vm_compute in E. injection E as <- <- <- <-.
  split; [reflexivity|]. apply Hh. discriminate.
Defined.

(** ** FilterBadChars *)

Lemma string_forall_app (P : ascii -> bool) (a b : string) :
  string_forall P (a ++ b) = string_forall P a && string_forall P b.
Proof.
  induction a as [|x a IH]; simpl; [reflexivity|].
  rewrite IH, andb_assoc. reflexivity.
Qed.

Lemma FilterBadChars_clean (s : string) :
  string_forall (fun a => negb (is_bad_char a)) (FilterBadChars s) = true.
Proof.
  induction s as [|a t IH]; [reflexivity|].
  cbn [FilterBadChars]. destruct (is_bad_char a) eqn:E.
  - rewrite string_forall_app, IH, andb_true_r. reflexivity.
  - cbn [string_forall]. rewrite E, IH. reflexivity.
Qed.

Lemma FilterBadChars_fixed (s : string) :
  string_forall (fun a => negb (is_bad_char a)) s = true ->
  FilterBadChars s = s.
Proof.
  induction s as [|a t IH]; simpl; [reflexivity|].
  intros H. apply andb_true_iff in H as [Ha Ht].
  apply negb_true_iff in Ha. rewrite Ha, (IH Ht). reflexivity.
Qed.

(** X2: after [FilterBadChars] no character of the class
    [[\x00-\x08\x0b\x0c\x0e-\x1f]] is left, tab, line feed and carriage
    return are kept, and filtering a second time changes nothing. *)
Theorem FilterBadChars_removes_control_chars (s : string) :
  string_forall (fun a => negb (is_bad_char a)) (FilterBadChars s) = true
  /\ FilterBadChars (FilterBadChars s) = FilterBadChars s
  /\ is_bad_char (ascii_of_nat 9) = false
  /\ is_bad_char (ascii_of_nat 10) = false
  /\ is_bad_char (ascii_of_nat 13) = false.
Proof.
  split; [apply FilterBadChars_clean|].
  split; [apply FilterBadChars_fixed, FilterBadChars_clean|].
  repeat split.
Qed.

(** ** Splitting into lines *)

Lemma split_char_cons (c : ascii) (s : string) :
  exists h r, split_char c s = h :: r.
Proof.
  induction s as [|a t (h & r & IH)]; simpl; [eauto|].
  destruct (Ascii.eqb a c); [eauto|]. rewrite IH. eauto.
Qed.

Lemma split_char_no_sep (c : ascii) (s : string) :
  Forall (fun line => string_forall (not_char c) line = true) (split_char c s).
Proof.
  induction s as [|a t IH]; simpl.
  - constructor; [reflexivity|constructor].
  - destruct (Ascii.eqb a c) eqn:E.
    + constructor; [reflexivity|exact IH].
    + destruct (split_char_cons c t) as (h & r & E'). rewrite E' in *.
      inversion IH; subst.
      constructor; [|assumption].
      cbn [string_forall]. unfold not_char at 1. rewrite E. assumption.
Qed.

Lemma split_char_length (c : ascii) (s : string) :
  Forall (fun line => (String.length line <= String.length s)%nat)
    (split_char c s).
Proof.
  induction s as [|a t IH]; simpl.
  - constructor; [simpl; lia|constructor].
  - destruct (Ascii.eqb a c).
    + constructor; [simpl; lia|].
      eapply Forall_impl; [|exact IH]. simpl. intros; lia.
    + destruct (split_char_cons c t) as (h & r & E'). rewrite E' in *.
      inversion IH; subst.
      constructor; [simpl; lia|].
      eapply Forall_impl; [|eassumption]. simpl. intros; lia.
Qed.

Lemma split_char_none (c : ascii) (s : string) :
  string_forall (not_char c) s = true -> split_char c s = [s].
Proof.
  induction s as [|a t IH]; simpl; [reflexivity|].
  intros H. apply andb_true_iff in H as [Ha Ht].
  unfold not_char in Ha. apply negb_true_iff in Ha.
  rewrite Ha, (IH Ht). reflexivity.
Qed.

(** ** CalculateLength *)

Lemma py_len_le (s : string) : (py_len s <= String.length s)%nat.
Proof.
  induction s as [|a t IH]; simpl; [lia|].
  destruct (is_continuation a); lia.
Qed.

Lemma fold_max_bound (l : list nat) :
  Forall (fun n => (n <= fold_right Nat.max O l)%nat) l.
Proof.
  induction l as [|n l IH]; simpl; constructor; [lia|].
  eapply Forall_impl; [|exact IH]. simpl. intros; lia.
Qed.

Lemma fold_max_attained (l : list nat) :
  l <> [] -> Exists (fun n => n = fold_right Nat.max O l) l.
Proof.
  induction l as [|n l IH]; [congruence|]. intros _. simpl.
  destruct (Nat.max_spec n (fold_right Nat.max O l)) as [[Hlt ->]|[Hle ->]].
  - right. apply IH. intros ->. simpl in Hlt. lia.
  - left. reflexivity.
Qed.

(** X3: [CalculateLength] is the length of a longest line: no line of the
    text is longer, some line has exactly that length, and it never
    exceeds the length of the whole text. *)
Theorem CalculateLength_longest_line (s : string) :
  Forall (fun line => (py_len line <= CalculateLength s)%nat) (split_char nl s)
  /\ Exists (fun line => py_len line = CalculateLength s) (split_char nl s)
  /\ (CalculateLength s <= String.length s)%nat.
Proof.
  unfold CalculateLength.
  pose proof (fold_max_bound (map py_len (split_char nl s))) as Hb.
  assert (He : Exists (fun line => py_len line
                         = fold_right Nat.max O (map py_len (split_char nl s)))
                 (split_char nl s)).
  { destruct (split_char_cons nl s) as (h & r & E).
    pose proof (fold_max_attained (map py_len (split_char nl s))) as Ha.
    rewrite E in *. specialize (Ha ltac:(discriminate)).
    apply Exists_exists in Ha as (n & Hn & Hmax).
    apply in_map_iff in Hn as (line & Hline & Hin).
    apply Exists_exists. exists line. split; [exact Hin|congruence]. }
  split; [|split; [exact He|]].
  - rewrite Forall_map in Hb. exact Hb.
  - apply Exists_exists in He as (line & Hin & <-).
    pose proof (split_char_length nl s) as Hl.
    rewrite Forall_forall in Hl. specialize (Hl line Hin).
    pose proof (py_len_le line). lia.
Qed.

(** ** ASSEscape *)

Lemma string_forall_lstrip (P : ascii -> bool) (s : string) :
  string_forall P s = true -> string_forall P (lstrip s) = true.
Proof.
  induction s as [|a t IH]; simpl; [auto|].
  intros H. destruct (Ascii.eqb a " ").
  - apply andb_true_iff in H as [_ Ht]. auto.
  - exact H.
Qed.

Lemma string_forall_rev_acc (P : ascii -> bool) (s acc : string) :
  string_forall P (string_rev_acc s acc)
  = string_forall P s && string_forall P acc.
Proof.
  revert acc. induction s as [|a t IH]; intros acc; simpl; [reflexivity|].
  rewrite IH. simpl. destruct (P a), (string_forall P t); reflexivity.
Qed.

Lemma string_forall_rev (P : ascii -> bool) (s : string) :
  string_forall P (string_rev s) = string_forall P s.
Proof.
  unfold string_rev. rewrite string_forall_rev_acc. simpl.
  apply andb_true_r.
Qed.

Lemma string_forall_rstrip (P : ascii -> bool) (s : string) :
  string_forall P s = true -> string_forall P (rstrip s) = true.
Proof.
  intros H. unfold rstrip. rewrite string_forall_rev.
  apply string_forall_lstrip. rewrite string_forall_rev. exact H.
Qed.

Lemma string_forall_repeat (P : ascii -> bool) (s : string) (n : nat) :
  string_forall P s = true -> string_forall P (string_repeat s n) = true.
Proof.
  intros H. induction n as [|n IH]; simpl; [reflexivity|].
  rewrite string_forall_app, H, IH. reflexivity.
Qed.

Lemma string_forall_ReplaceLeadingSpace (P : ascii -> bool) (s : string) :
  string_forall P figure_space = true ->
  string_forall P s = true ->
  string_forall P (ReplaceLeadingSpace s) = true.
Proof.
  intros Hf Hs. unfold ReplaceLeadingSpace. cbv zeta.
  destruct (Nat.eqb _ _); [exact Hs|].
  rewrite !string_forall_app, !string_forall_repeat by exact Hf.
  rewrite string_forall_lstrip by (apply string_forall_rstrip; exact Hs).
  reflexivity.
Qed.

Lemma string_forall_concat (P : ascii -> bool) (sep : string) (l : list string) :
  string_forall P sep = true ->
  Forall (fun x => string_forall P x = true) l ->
  string_forall P (String.concat sep l) = true.
Proof.
  intros Hsep Hl. induction Hl as [|x l Hx Hl IH]; [reflexivity|].
  cbn [String.concat]. destruct l as [|y l]; [exact Hx|].
  rewrite !string_forall_app, Hx, Hsep, IH. reflexivity.
Qed.

Lemma concat_nonempty (sep x : string) (l : list string) :
  x <> EmptyString -> String.concat sep (x :: l) <> EmptyString.
Proof.
  intros Hx. cbn [String.concat]. destruct l as [|y l]; [exact Hx|].
  destruct x; [congruence|]. discriminate.
Qed.

(** X4: the escaped text never contains a line feed (each becomes the
    marker [\N]) and is never empty. *)
Theorem ASSEscape_no_newline_nonempty (s : string) :
  string_forall (not_char nl) (ASSEscape s) = true
  /\ ASSEscape s <> EmptyString.
Proof.
  unfold ASSEscape.
  set (escaped := replace_char "}" "\}" (replace_char "{" "\{"
                    (replace_char "\" "\\" s))).
  split.
  - apply string_forall_concat; [reflexivity|].
    apply Forall_map.
    eapply Forall_impl; [|apply (split_char_no_sep nl escaped)].
    intros line Hline. cbv beta.
    destruct (String.eqb (ReplaceLeadingSpace line) ""); [reflexivity|].
    apply string_forall_ReplaceLeadingSpace; [reflexivity|exact Hline].
  - destruct (split_char_cons nl escaped) as (h & r & E).
    rewrite E. cbn [map]. apply concat_nonempty.
    destruct (String.eqb_spec (ReplaceLeadingSpace h) ""); [discriminate|].
    assumption.
Qed.

Lemma replace_char_none (c : ascii) (r s : string) :
  string_forall (not_char c) s = true -> replace_char c r s = s.
Proof.
  induction s as [|a t IH]; simpl; [reflexivity|].
  intros H. apply andb_true_iff in H as [Ha Ht].
  unfold not_char in Ha. apply negb_true_iff in Ha.
  rewrite Ha, (IH Ht). reflexivity.
Qed.

(** X5: a non-empty text without backslash, brace or line feed that neither
    starts nor ends with a space is written unchanged. *)
Theorem ASSEscape_plain_text (s : string) :
  string_forall (not_char "\") s = true ->
  string_forall (not_char "{") s = true ->
  string_forall (not_char "}") s = true ->
  string_forall (not_char nl) s = true ->
  lstrip s = s -> rstrip s = s -> s <> EmptyString ->
  ASSEscape s = s.
Proof.
  intros Hb Ho Hc Hn Hl Hr He. unfold ASSEscape.
  rewrite (replace_char_none "\" _ s Hb), (replace_char_none "{" _ s Ho),
    (replace_char_none "}" _ s Hc), (split_char_none nl s Hn).
  cbn [map String.concat].
  assert (E : ReplaceLeadingSpace s = s).
  { unfold ReplaceLeadingSpace. cbv zeta. rewrite Hr, Hl, Nat.eqb_refl.
    reflexivity. }
  rewrite E. destruct (String.eqb_spec s ""); [contradiction|reflexivity].
Qed.

Lemma ASSEscape_plain_text_witness :
  ASSEscape "hello world" = "hello world"%string.
Proof.
  apply ASSEscape_plain_text; try reflexivity. discriminate.
Defined.

(** ** ReadCommentsBilibili *)

Lemma lane_of_type_range (t : string) (m : Z) :
  lane_of_type t = Some m -> 0 <= m < 4.
Proof.
  unfold lane_of_type.
  repeat match goal with
         | |- context [String.eqb ?a ?b] => destruct (String.eqb a b)
         end; intros [= <-]; lia.
Qed.

Ltac read_cases H :=
  repeat match type of H with
         | context [match ?x with _ => _ end] =>
             destruct x eqn:?; try discriminate H
         end.

Lemma read_element_yield (int_of_str : string -> option Z)
    (float_of_str : string -> option Q) (fontsize : Q) (i : Z)
    (e : Element) (c : Comment) :
  read_element int_of_str float_of_str fontsize i e = Yield c ->
  c_no c = i
  /\ ((exists m, c_pos c = PosInt m /\ 0 <= m < 4
                 /\ c_height c
                    = (inject_Z (Z.of_nat (count_nl (c_comment c) + 1))
                       * c_size c)%Q
                 /\ c_width c
                    = (inject_Z (Z.of_nat (CalculateLength (c_comment c)))
                       * c_size c)%Q)
      \/ (c_pos c = PosStr "bilipos" /\ c_height c = 0%Q /\ c_width c = 0%Q)).
Proof.
  intros H. unfold read_element in H. cbv zeta in H. read_cases H.
  - injection H as <-. split; [reflexivity|]. left.
    exists z. split; [reflexivity|].
    split; [eapply lane_of_type_range; eauto|]. split; reflexivity.
  - injection H as <-. split; [reflexivity|]. right. auto.
Qed.

Lemma read_elements_from (int_of_str : string -> option Z)
    (float_of_str : string -> option Q) (fontsize : Q)
    (elements : list Element) :
  forall i,
    Forall (fun c => i <= c_no c /\ lane_mode_ok c
                     /\ match c_pos c with
                        | PosInt _ => True
                        | PosStr s => s = "bilipos"%string
                        end)
      (read_elements int_of_str float_of_str fontsize i elements)
    /\ StronglySorted (fun a b => c_no a < c_no b)
         (read_elements int_of_str float_of_str fontsize i elements).
Proof.
  induction elements as [|e rest IH]; intros i; simpl.
  - split; constructor.
  - destruct (IH (i + 1)) as [Hall Hsorted].
    assert (Hweak : Forall (fun c => i <= c_no c /\ lane_mode_ok c
                                     /\ match c_pos c with
                                        | PosInt _ => True
                                        | PosStr s => s = "bilipos"%string
                                        end)
                      (read_elements int_of_str float_of_str fontsize
                         (i + 1) rest)).
    { eapply Forall_impl; [|exact Hall]. simpl. intros c (Hc & Hm & Hp).
      split; [lia|]. split; assumption. }
    destruct (read_element int_of_str float_of_str fontsize i e) as [c| |] eqn:E;
      [|split; assumption|split; assumption].
    apply read_element_yield in E as [Hno Hshape].
    split.
    + constructor; [|exact Hweak]. split; [lia|].
      unfold lane_mode_ok.
      destruct Hshape as [(m & -> & Hm & _)|(-> & _)]; split; auto.
    + constructor; [exact Hsorted|].
      eapply Forall_impl; [|exact Hall]. simpl. intros c' (Hc' & _). lia.
Qed.

(** X6: every comment the reader yields has lane mode 0, 1, 2 or 3 or is
    a positioned comment, and the sequence numbers of the yielded comments
    are non-negative and strictly increase in input order, whatever the
    elements contain. *)
Theorem ReadCommentsBilibili_well_formed (int_of_str : string -> option Z)
    (float_of_str : string -> option Q) (fontsize : Q)
    (elements : list Element) :
  let comments :=
    ReadCommentsBilibili int_of_str float_of_str fontsize elements in
  Forall (fun c => 0 <= c_no c /\ lane_mode_ok c
                   /\ match c_pos c with
                      | PosInt _ => True
                      | PosStr s => s = "bilipos"%string
                      end) comments
  /\ StronglySorted (fun a b => c_no a < c_no b) comments.
Proof.
  intros comments. unfold comments, ReadCommentsBilibili.
  apply read_elements_from.
Qed.

(** X7: a yielded lane comment has height [(newlines + 1) * size] and
    width [CalculateLength * size]; a yielded positioned comment has
    height and width 0; both carry the number of their element. *)
Theorem read_element_dimensions (int_of_str : string -> option Z)
    (float_of_str : string -> option Q) (fontsize : Q) (i : Z)
    (e : Element) (c : Comment) :
  read_element int_of_str float_of_str fontsize i e = Yield c ->
  c_no c = i
  /\ match c_pos c with
     | PosInt m =>
         0 <= m < 4
         /\ c_height c
            = (inject_Z (Z.of_nat (count_nl (c_comment c) + 1)) * c_size c)%Q
         /\ c_width c
            = (inject_Z (Z.of_nat (CalculateLength (c_comment c)))
               * c_size c)%Q
     | PosStr s =>
         s = "bilipos"%string /\ c_height c = 0%Q /\ c_width c = 0%Q
     end.
Proof.
  intros H. apply read_element_yield in H as [Hno Hshape].
  split; [exact Hno|].
  destruct Hshape as [(m & -> & Hm & Hh & Hw)|(-> & Hh & Hw)]; auto.
Qed.

Lemma read_element_dimensions_witness :
  let e := mkElement "1.5,5,25,16711680,0" [TextNode "ab/ncde"] in
  exists c,
    read_element demo_int_of_str (fun _ => Some (3 # 2)) 25 7 e = Yield c
    /\ c_no c = 7 /\ c_pos c = PosInt 1
    /\ c_height c = (inject_Z 2 * c_size c)%Q
    /\ c_width c = (inject_Z 3 * c_size c)%Q.
Proof.
  intros e.
  destruct (read_element demo_int_of_str (fun _ => Some (3 # 2)) 25 7 e)
    as [c| |] eqn:E; try (vm_compute in E; discriminate E).
  exists c. split; [reflexivity|].
  destruct (read_element_dimensions _ _ _ _ _ _ E) as [Hno Hshape].
  assert (Hpos : c_pos c = PosInt 1)
    by (vm_compute in E; injection E as <-; reflexivity).
  assert (Htext : c_comment c = replace_slash_n "ab/ncde")
    by (vm_compute in E; injection E as <-; reflexivity).
  rewrite Hpos in Hshape. destruct Hshape as (_ & Hh & Hw).
  rewrite Htext in Hh, Hw. auto.
Defined.

(** ** GetZoomFactor *)

Lemma inject_Z_pos (n : Z) : 0 < n -> (0 < inject_Z n)%Q.
Proof. intros H. change 0%Q with (inject_Z 0). rewrite <- Zlt_Qlt. exact H. Qed.

Lemma truediv_nonzero (x y : Q) : ~ (y == 0)%Q -> truediv x y = Ok (x / y)%Q.
Proof. intros H. unfold truediv. rewrite (Qeq_bool_false _ H). reflexivity. Qed.

Lemma Qdiv_pos (x y : Q) : (0 < x)%Q -> (0 < y)%Q -> (0 < x / y)%Q.
Proof.
  intros Hx Hy. apply Qlt_shift_div_l; [exact Hy|]. Lqa.lra.
Qed.

Lemma Qpos_nonzero (x : Q) : (0 < x)%Q -> ~ (x == 0)%Q.
Proof. intros H E. rewrite E in H. exact (Qlt_irrefl 0 H). Qed.

Ltac nonzero := repeat split; apply Qpos_nonzero; assumption.

(** X8: for positive source and target sizes the zoom scales the source
    viewport into the target and centres it: [f * source + 2 * offset]
    equals the target size on both axes, the offsets are not negative, one
    of them is zero, and the scale is positive. *)
Theorem GetZoomFactor_letterbox (s0 s1 t0 t1 : Z) :
  0 < s0 -> 0 < s1 -> 0 < t0 -> 0 < t1 ->
  let '(f, dx, dy) := GetZoomFactor (s0, s1) (t0, t1) in
  (f * inject_Z s0 + 2 * dx == inject_Z t0)%Q
  /\ (f * inject_Z s1 + 2 * dy == inject_Z t1)%Q
  /\ (0 <= dx)%Q /\ (0 <= dy)%Q
  /\ (dx == 0 \/ dy == 0)%Q
  /\ (0 < f)%Q.
Proof.
  intros Hs0 Hs1 Ht0 Ht1.
  apply inject_Z_pos in Hs0, Hs1, Ht0, Ht1.
  unfold GetZoomFactor. cbn [fst snd].
  set (a := inject_Z s0) in *. set (b := inject_Z s1) in *.
  set (c := inject_Z t0) in *. set (d := inject_Z t1) in *.
  clearbody a b c d.
  assert (Hsa : (0 < a / b)%Q) by (apply Qdiv_pos; assumption).
  assert (Hta : (0 < c / d)%Q) by (apply Qdiv_pos; assumption).
  rewrite (truediv_nonzero a b) by nonzero. cbn [Py.bind].
  rewrite (truediv_nonzero c d) by nonzero. cbn [Py.bind].
  assert (Hab : (a / b * b == a)%Q) by (field; nonzero).
  assert (Hcd : (c / d * d == c)%Q) by (field; nonzero).
  destruct (Qltb (c / d) (a / b)) eqn:E1.
  - apply Qltb_lt in E1.
    rewrite (truediv_nonzero c a) by nonzero. cbn [Py.bind].
    rewrite (truediv_nonzero c (a / b)) by nonzero. cbn [Py.bind].
    assert (Hx' : (c / (a / b) == c / a * b)%Q) by (field; nonzero).
    assert (Hle : (c / (a / b) <= d)%Q).
    { apply Qle_shift_div_r; [exact Hsa|].
      rewrite <- Hcd at 1. rewrite (Qmult_comm d).
      apply Qmult_le_compat_r; apply Qlt_le_weak; assumption. }
    set (x := (c / (a / b))%Q) in *. clearbody x.
    split; [field; nonzero|].
    split; [rewrite <- Hx'; field|].
    split; [apply Qle_refl|].
    split; [apply Qle_shift_div_l; [reflexivity|]; Lqa.lra|].
    split; [left; reflexivity|].
    apply Qdiv_pos; assumption.
  - apply Qltb_ge in E1.
    destruct (Qltb (a / b) (c / d)) eqn:E2.
    + apply Qltb_lt in E2.
      rewrite (truediv_nonzero d b) by nonzero. cbn [Py.bind].
      assert (Hle : (d * (a / b) <= c)%Q).
      { rewrite <- Hcd. rewrite (Qmult_comm d).
        apply Qmult_le_compat_r; apply Qlt_le_weak; assumption. }
      assert (Hy : (d / b * a == d * (a / b))%Q) by (field; nonzero).
      set (y := (d * (a / b))%Q) in *. clearbody y.
      split; [rewrite Hy; field|].
      split; [field; nonzero|].
      split; [apply Qle_shift_div_l; [reflexivity|]; Lqa.lra|].
      split; [apply Qle_refl|].
      split; [right; reflexivity|].
      apply Qdiv_pos; assumption.
    + apply Qltb_ge in E2.
      rewrite (truediv_nonzero c a) by nonzero. cbn [Py.bind].
      assert (Heq : (a / b == c / d)%Q) by (apply Qle_antisym; assumption).
      assert (Hq : (c / a * b == d)%Q).
      { assert (H1 : (a * d == c * b)%Q).
        { rewrite <- Hab at 1. rewrite Heq. rewrite <- Hcd at 2. ring. }
        field_simplify_eq; [|nonzero]. rewrite H1. ring. }
      split; [field; nonzero|].
      split; [rewrite Hq; ring|].
      split; [apply Qle_refl|].
      split; [apply Qle_refl|].
      split; [left; reflexivity|].
      apply Qdiv_pos; assumption.
Qed.

Lemma GetZoomFactor_letterbox_witness :
  let '(f, dx, dy) := GetZoomFactor BiliPlayerSize (1344, 1000) in
  (f == 2)%Q /\ (dx == 0)%Q /\ (dy == 62)%Q
  /\ (f * inject_Z 438 + 2 * dy == inject_Z 1000)%Q.
Proof.
  pose proof (GetZoomFactor_letterbox 672 438 1344 1000
                ltac:(lia) ltac:(lia) ltac:(lia) ltac:(lia)) as H.
  change (672, 438) with BiliPlayerSize in H.
  destruct (GetZoomFactor BiliPlayerSize (1344, 1000)) as [[f dx] dy] eqn:E.
  destruct H as (_ & H & _).
  split; [|split; [|split; [|exact H]]];
    vm_compute in E; injection E as <- <- <-; reflexivity.
Defined.

(** X9: a source or target of height 0 gives the identity zoom
    [(1, 0, 0)] instead of a division error. *)
Theorem GetZoomFactor_degenerate (s0 s1 t0 t1 : Z) :
  s1 = 0 \/ t1 = 0 -> GetZoomFactor (s0, s1) (t0, t1) = (1, 0, 0)%Q.
Proof.
  intros H. unfold GetZoomFactor, truediv. cbn [fst snd].
  destruct H as [-> | ->].
  - reflexivity.
  - destruct (Qeq_bool (inject_Z s1) 0); reflexivity.
Qed.

Lemma GetZoomFactor_degenerate_witness :
  GetZoomFactor BiliPlayerSize (640, 0) = (1, 0, 0)%Q.
Proof. apply GetZoomFactor_degenerate. right. reflexivity. Defined.

(** ** Angles of ConvertFlashRotation *)

Section FlashAngles.

Import FlashRotation.

Lemma WrapAngleZ_range (deg : Z) :
  (-180 < WrapAngleZ deg <= 180)%Z /\ ((deg - WrapAngleZ deg) mod 360 = 0)%Z.
Proof.
  unfold WrapAngleZ. split.
  - pose proof (Z.mod_pos_bound (180 - deg) 360 ltac:(lia)). lia.
  - Z.to_euclidean_division_equations. lia.
Qed.

Lemma wrapped_rotY_nudge (rotY : Z) :
  (-181 <= wrapped_rotY rotY <= 180)%Z
  /\ wrapped_rotY rotY <> 90%Z /\ wrapped_rotY rotY <> (-90)%Z
  /\ (WrapAngleZ rotY - 1 <= wrapped_rotY rotY <= WrapAngleZ rotY)%Z.
Proof.
  destruct (WrapAngleZ_range rotY) as [Hr Hm].
  unfold wrapped_rotY. cbv zeta.
  destruct (Z.eqb_spec (WrapAngleZ rotY) 90) as [E1|E1];
    destruct (Z.eqb_spec (WrapAngleZ rotY) (-90)) as [E2|E2];
    cbn [orb]; lia.
Qed.

(** X10: [WrapAngle] on an int returns the angle of the same direction in
    (-180, 180]; the angle used for [rotY] is moreover never 90 or -90 and
    differs from the wrapped one by at most one degree. *)
Theorem wrapped_rotY_range (rotY : Z) :
  (-180 < WrapAngleZ rotY <= 180)%Z
  /\ ((rotY - WrapAngleZ rotY) mod 360 = 0)%Z
  /\ (-181 <= wrapped_rotY rotY <= 180)%Z
  /\ wrapped_rotY rotY <> 90%Z /\ wrapped_rotY rotY <> (-90)%Z
  /\ (WrapAngleZ rotY - 1 <= wrapped_rotY rotY <= WrapAngleZ rotY)%Z.
Proof.
  destruct (WrapAngleZ_range rotY) as [Hr Hm].
  split; [exact Hr|]. split; [exact Hm|].
  apply wrapped_rotY_nudge.
Qed.

#[local] Open Scope R_scope.

(** X11: after wrapping and nudging, the cosine of [rotY] is never zero,
    so the divisions by [cos(rotY)] in the projection are defined. *)
Theorem cos_wrapped_rotY_nonzero (rotY : Z) :
  cos (radians (wrapped_rotY rotY)) <> 0.
Proof.
  destruct (wrapped_rotY_nudge rotY) as (Hr & H90 & Hm90 & _).
  set (d := wrapped_rotY rotY) in *. clearbody d.
  intros Hcos. apply cos_eq_0_0 in Hcos as (k & Hk).
  unfold radians in Hk.
  pose proof PI_RGT_0 as Hpi.
  assert (HI : IZR d = IZR (180 * k + 90)).
  { rewrite plus_IZR, mult_IZR.
    apply (Rmult_eq_reg_r (PI / 180)); [|lra].
    rewrite Hk. field. }
  apply eq_IZR in HI. lia.
Qed.

Lemma fmod_range (x : R) : 0 <= fmod x 360 < 360.
Proof.
  unfold fmod. destruct (base_Int_part (x / 360)) as [Hle Hgt].
  set (q := IZR (Int_part (x / 360))) in *. clearbody q.
  assert (Hx : x = x / 360 * 360) by field.
  lra.
Qed.

(** X12: [WrapAngle] on a float returns a value in (-180, 180]. *)
Theorem WrapAngle_range (deg : R) : -180 < WrapAngle deg <= 180.
Proof.
  unfold WrapAngle. pose proof (fmod_range (180 - deg)). lra.
Qed.

Lemma WrapAngle_0 : WrapAngle 0 = 0.
Proof.
  unfold WrapAngle, fmod.
  replace (Int_part ((180 - 0) / 360)) with 0%Z.
  - simpl. lra.
  - apply Int_part_spec. simpl. lra.
Qed.

Lemma WrapAngleZ_multiple (deg : Z) :
  (deg mod 360 = 0)%Z -> WrapAngleZ deg = 0%Z.
Proof.
  intros H. unfold WrapAngleZ. Z.to_euclidean_division_equations. lia.
Qed.

(** X13: without rotation (both angles multiples of 360 degrees) the
    projection leaves the anchor point where it is, reports no rotation
    and a scale of 100 percent. *)
Theorem ConvertFlashRotation_no_rotation (rotY rotZ : Z) (X Y : R)
    (width height : Z) :
  (rotY mod 360 = 0)%Z -> (rotZ mod 360 = 0)%Z ->
  ConvertFlashRotation rotY rotZ X Y width height = (X, Y, 0, 0, 0, 100, 100).
Proof.
  intros HY HZ.
  apply WrapAngleZ_multiple in HY, HZ.
  assert (HwY : wrapped_rotY rotY = 0%Z) by (unfold wrapped_rotY; rewrite HY; reflexivity).
  assert (Hr0 : radians 0 = 0) by (unfold radians; lra).
  assert (HpX : pre_trX rotY rotZ X Y width height = X).
  { unfold pre_trX. rewrite HwY, HZ. cbv zeta. rewrite Hr0, cos_0, sin_0. field. }
  assert (HpY : pre_trY rotZ X Y width height = Y).
  { unfold pre_trY. rewrite HZ. cbv zeta. rewrite Hr0, cos_0, sin_0. field. }
  assert (HtZ : trZ rotY rotZ X Y width height = 0).
  { unfold trZ. rewrite HwY, Hr0, sin_0. ring. }
  assert (Hs : scaleXY rotY rotZ X Y width height = 1).
  { unfold scaleXY. cbv zeta. rewrite HtZ, Rplus_0_r.
    unfold Reqb. destruct (Req_dec_T (FOV width) 0); [reflexivity|].
    field. assumption. }
  assert (Ho : out_angles rotY rotZ = (0, 0, 0)).
  { unfold out_angles. rewrite HwY, HZ. reflexivity. }
  unfold ConvertFlashRotation. rewrite Ho, Hs, HpX, HpY.
  unfold Rltb. destruct (Rlt_dec 1 0); [lra|].
  rewrite WrapAngle_0.
  repeat f_equal; lra.
Qed.

Lemma ConvertFlashRotation_no_rotation_witness :
  ConvertFlashRotation 360 (-720) 10 20 640 480 = (10, 20, 0, 0, 0, 100, 100).
Proof. apply ConvertFlashRotation_no_rotation; reflexivity. Defined.

End FlashAngles.

(** ** MarkCommentRow *)



(** ** More on TestFreeRows *)

Lemma free_run_all_free (blocks : Comment -> bool) (cells : list Cell) :
  Forall (fun cell => cell = None) cells ->
  free_run blocks cells = List.length cells.
Proof.
  induction 1 as [|cell rest -> _ IH]; simpl; [reflexivity|].
  rewrite IH. reflexivity.
Qed.

Lemma scan_window_length (lane : list Cell) (row rowmax : Z) (h : Q) :
  0 <= row -> rowmax <= Z.of_nat (List.length lane) ->
  Z.of_nat (List.length (scan_window lane row rowmax h))
  = Z.max 0 (Z.min (ceil h) (rowmax - row)).
Proof.
  intros Hrow Hlen. unfold scan_window.
  rewrite length_firstn, length_skipn. lia.
Qed.

Lemma TestFreeRows_empty_lane (rows : Rows) (c : Comment)
    (row width height bottomReserved : Z) (duration_marquee duration_still : Q)
    (lane : list Cell) :
  lane_of rows c = Ok lane ->
  0 <= row ->
  height - bottomReserved <= Z.of_nat (List.length lane) ->
  Forall (fun cell => cell = None) lane ->
  TestFreeRows rows c row width height bottomReserved
    duration_marquee duration_still
  = Ok (Z.max 0 (Z.min (ceil (c_height c))
                   (height - bottomReserved - row))).
Proof.
  intros Hlane Hrow Hlen Hfree.
  rewrite (TestFreeRows_run rows c row width height bottomReserved
             duration_marquee duration_still lane Hlane Hrow Hlen).
  f_equal. rewrite free_run_all_free.
  - apply scan_window_length; assumption.
  - apply Forall_forall. intros cell Hin.
    rewrite Forall_forall in Hfree. apply Hfree.
    eapply In_scan_window; eauto.
Qed.

(** X15: on a lane at least as long as the usable height, a scan from a
    non-negative row returns between 0 and
    [min(ceil(height), usable_height - row)] free rows, and exactly that
    many when the lane is empty. *)
Theorem TestFreeRows_bounds (rows : Rows) (c : Comment)
    (row width height bottomReserved : Z) (duration_marquee duration_still : Q)
    (lane : list Cell) :
  lane_of rows c = Ok lane ->
  0 <= row ->
  height - bottomReserved <= Z.of_nat (List.length lane) ->
  let most := Z.max 0 (Z.min (ceil (c_height c))
                         (height - bottomReserved - row)) in
  exists f,
    TestFreeRows rows c row width height bottomReserved
      duration_marquee duration_still = Ok f
    /\ 0 <= f <= most
    /\ (Forall (fun cell => cell = None) lane -> f = most).
Proof.
  intros Hlane Hrow Hlen most.
  rewrite (TestFreeRows_run rows c row width height bottomReserved
             duration_marquee duration_still lane Hlane Hrow Hlen).
  eexists. split; [reflexivity|].
  pose proof (scan_window_length lane row (height - bottomReserved)
                (c_height c) Hrow Hlen) as Hw.
  fold most in Hw.
  pose proof (free_run_le (blocks_of width duration_marquee duration_still c)
                (scan_window lane row (height - bottomReserved) (c_height c))).
  split; [lia|].
  intros Hfree. rewrite free_run_all_free; [exact Hw|].
  apply Forall_forall. intros cell Hin.
  rewrite Forall_forall in Hfree. apply Hfree.
  eapply In_scan_window; eauto.
Qed.

Lemma TestFreeRows_bounds_witness :
  let c := demo_comment 0 1 0 (5 # 2) 10 in
  exists f,
    TestFreeRows (new_rows 10 0) c 8 100 10 0 5 5 = Ok f /\ f = 2.
Proof.
  intros c.
  destruct (TestFreeRows_bounds (new_rows 10 0) c 8 100 10 0 5 5
              (repeat None 11)) as (f & Hf & _ & Hall);
    [reflexivity|lia|simpl; lia|].
  exists f. split; [exact Hf|].
  rewrite Hall; [reflexivity|].
  apply Forall_forall. intros x Hx. apply repeat_spec in Hx. exact Hx.
Defined.

(** X16: for a still comment (mode 1 or 2) the scan counts the leading
    rows of its window that are unoccupied or whose occupant's display
    window has ended, i.e. has
    [appearance_time + duration_still <= c.appearance_time]. *)
Theorem TestFreeRows_still_rule (rows : Rows) (c : Comment)
    (row width height bottomReserved : Z) (duration_marquee duration_still : Q)
    (lane : list Cell) :
  c_pos c = PosInt 1 \/ c_pos c = PosInt 2 ->
  lane_of rows c = Ok lane ->
  0 <= row ->
  height - bottomReserved <= Z.of_nat (List.length lane) ->
  TestFreeRows rows c row width height bottomReserved
    duration_marquee duration_still
  = Ok (Z.of_nat
          (free_run (fun o => Qltb (c_timeline c)
                                (c_timeline o + duration_still))
             (scan_window lane row (height - bottomReserved) (c_height c))))
  /\ forall o,
       Qltb (c_timeline c) (c_timeline o + duration_still) = false
       <-> (c_timeline o + duration_still <= c_timeline c)%Q.
Proof.
  intros Hpos Hlane Hrow Hlen. split; [|intros o; apply Qltb_ge].
  rewrite (TestFreeRows_run rows c row width height bottomReserved
             duration_marquee duration_still lane Hlane Hrow Hlen).
  unfold blocks_of, is_still. destruct Hpos as [-> | ->]; reflexivity.
Qed.

Lemma TestFreeRows_still_rule_witness :
  let o := demo_comment 0 1 1 2 10 in
  let c := demo_comment 3 2 1 2 10 in
  let lane := [None; Some o; Some o; None; None] in
  let rows := [repeat None 5; lane; repeat None 5; repeat None 5] in
  TestFreeRows rows c 0 100 4 0 5 5 = Ok 1.
Proof.
  intros o c lane rows.
  destruct (TestFreeRows_still_rule rows c 0 100 4 0 5 5 lane) as [H _];
    [left; reflexivity|reflexivity|lia|simpl; lia|].
  rewrite H. reflexivity.
Defined.

(** ** Placement by the scan *)

(** X17: a row found by the scan is not negative; when the comment
    occupies at least one row, it fits above the bottom of the usable area
    and every row it will occupy is unoccupied or passes the collision
    test of its mode. *)
Theorem find_row_fits (rows : Rows) (c : Comment)
    (width height bottomReserved : Z) (duration_marquee duration_still : Q)
    (row : Z) :
  grid_shape (Z.to_nat (height - bottomReserved + 1)) rows ->
  find_row width height bottomReserved duration_marquee duration_still rows c
    = Ok (Some row) ->
  0 <= row
  /\ (0 < ceil (c_height c) ->
      row + ceil (c_height c) <= height - bottomReserved
      /\ exists lane,
           lane_of rows c = Ok lane
           /\ forall k, occupies c row k ->
                cell_at lane k = Some None
                \/ exists o,
                     cell_at lane k = Some (Some o)
                     /\ blocks_of width duration_marquee duration_still c o
                        = false).
Proof.
  intros Hs Hfind.
  apply find_row_loop_some in Hfind; [|lia].
  destruct Hfind as (Hrow & f & Htest & Hfit).
  split; [exact Hrow|]. intros Hpos.
  destruct (TestFreeRows_fits _ rows c row width height bottomReserved
              duration_marquee duration_still f Hs ltac:(lia) Hrow Htest
              Hfit Hpos) as (lane & Hlane & Hroom & Hcells).
  split; [exact Hroom|]. exists lane. split; [exact Hlane|].
  intros k Hk. destruct (Hcells k Hk) as ([o|] & Hcell & Hfree); eauto.
Qed.

Lemma find_row_fits_witness :
  let o := demo_comment 0 1 1 2 10 in
  let c := demo_comment 3 2 1 2 10 in
  let lane := [None; Some o; Some o; None; None; None] in
  let rows := [repeat None 6; lane; repeat None 6; repeat None 6] in
  find_row 100 5 0 5 5 rows c = Ok (Some 3) /\ 3 + ceil (c_height c) <= 5 - 0.
Proof.
  intros o c lane rows.
  assert (E : find_row 100 5 0 5 5 rows c = Ok (Some 3)) by reflexivity.
  split; [exact E|].
  destruct (find_row_fits rows c 100 5 0 5 5 3) as [_ H].
  - split; [reflexivity|]. repeat constructor.
  - exact E.
  - apply H. reflexivity.
Defined.

Lemma ceil_nonneg (h : Q) : (0 <= h)%Q -> 0 <= ceil h.
Proof.
  intros H. unfold ceil. rewrite <- (Qceiling_Z 0).
  apply Qceiling_resp_le. exact H.
Qed.

(** X18: on the fresh grid a lane comment whose height is between 0 and
    the usable height is placed at row 0 by the scan.  A run over this
    single unfiltered comment writes exactly its line, at row 0, when its
    timestamps can be converted, and ends with [OverflowError] without a
    line when they cannot. *)
Theorem first_comment_at_row_0
    (json_loads : string -> option json) (py_str : json -> string)
    (int_of_str : string -> option Z) (float_of_str : string -> option Q)
    (flash : Z -> Z -> Q -> Q -> Z -> Z -> RotArg)
    (width height bottomReserved : Z)
    (fontsize duration_marquee duration_still : Q)
    (filters_regex : list (string -> bool)) (reduced : bool)
    (c : Comment) (m : Z) :
  c_pos c = PosInt m -> 0 <= m < 4 ->
  (0 <= c_height c)%Q ->
  (c_height c <= inject_Z (height - bottomReserved))%Q ->
  existsb (fun filter_regex => filter_regex (c_comment c)) filters_regex
    = false ->
  find_row width height bottomReserved duration_marquee duration_still
    (new_rows height bottomReserved) c = Ok (Some 0)
  /\ let run :=
       ProcessComments json_loads py_str int_of_str float_of_str flash
         width height bottomReserved fontsize duration_marquee
         duration_still filters_regex reduced [c] in
     (timestamps_convert duration_marquee duration_still c ->
      run_exn run = None
      /\ run_out run
         = [OutComment c 0 false
              (WriteComment c 0 width height bottomReserved fontsize
                 duration_marquee duration_still)])
     /\ (~ timestamps_convert duration_marquee duration_still c ->
         run_exn run = Some OverflowError /\ run_out run = []).
Proof.
  intros Hpos Hm Hh0 Hh Hfilter.
  pose proof (new_rows_shape height bottomReserved) as Hs.
  set (usable := height - bottomReserved) in *.
  destruct (lane_of_shape _ _ c m Hs Hpos Hm) as (lane & Hlane & Hlen).
  assert (Hempty : Forall (fun cell => cell = None) lane).
  { unfold lane_of in Hlane. rewrite Hpos in Hlane.
    apply getitem_In in Hlane. unfold new_rows in Hlane.
    apply repeat_spec in Hlane. subst lane.
    apply Forall_forall. intros x Hx. apply repeat_spec in Hx. exact Hx. }
  assert (Hfind : find_row width height bottomReserved duration_marquee
                    duration_still (new_rows height bottomReserved) c
                  = Ok (Some 0)).
  { unfold find_row. cbv zeta. fold usable.
    set (rowmax := (inject_Z usable - c_height c)%Q).
    assert (Hrm : (0 <= rowmax)%Q) by (unfold rowmax; Lqa.lra).
    assert (Hfl : 0 <= Qfloor rowmax).
    { rewrite <- (Qfloor_Z 0). apply Qfloor_resp_le. exact Hrm. }
    destruct (Z.to_nat (Qfloor rowmax + 1)) as [|fuel] eqn:Efuel; [lia|].
    cbn [find_row_loop]. fold usable. fold rowmax.
    replace (Qle_bool (inject_Z 0) rowmax) with true
      by (symmetry; apply Qle_bool_iff; exact Hrm).
    rewrite (TestFreeRows_empty_lane (new_rows height bottomReserved) c 0
               width height bottomReserved duration_marquee duration_still
               lane Hlane (Z.le_refl 0))
      by (try exact Hempty; fold usable; rewrite Hlen; lia).
    cbn [Py.bind].
    fold usable. rewrite Z.sub_0_r.
    pose proof (ceil_nonneg _ Hh0) as Hc0.
    assert (Hcu : ceil (c_height c) <= usable) by (apply ceil_le_of_le; exact Hh).
    replace (Z.max 0 (Z.min (ceil (c_height c)) usable))
      with (ceil (c_height c)) by lia.
    replace (Qle_bool (c_height c) (inject_Z (ceil (c_height c)))) with true;
      [reflexivity|].
    symmetry. apply Qle_bool_iff. apply Qle_ceiling. }
  split; [exact Hfind|].
  unfold ProcessComments. cbn [process_loop].
  unfold process_comment. rewrite Hpos, Hfilter, Hfind.
  destruct (write_at_marks width height bottomReserved fontsize
              duration_marquee duration_still
              (new_rows height bottomReserved) c m 0 false Hs Hpos)
    as (rows' & Hw & _).
  rewrite Hw.
  split; intros Hc.
  - rewrite (WriteComment_call_ok _ _ _ _ _ _ _ _ Hc). split; reflexivity.
  - rewrite (WriteComment_call_raise _ _ _ _ _ _ _ _ Hc). split; reflexivity.
Qed.

Lemma first_comment_at_row_0_witness :
  let c := demo_comment 0 1 0 25 100 in
  run_out (ProcessComments demo_loads demo_str demo_int_of_str
             demo_float_of_str demo_flash 800 600 0 25 5 5 [] false [c])
  = [OutComment c 0 false (WriteComment c 0 800 600 0 25 5 5)].
Proof.
  intros c.
  destruct (first_comment_at_row_0 demo_loads demo_str demo_int_of_str
              demo_float_of_str demo_flash 800 600 0 25 5 5 [] false c 0)
    as (_ & H & _).
  - reflexivity.
  - lia.
  - discriminate.
  - discriminate.
  - reflexivity.
  - apply H. split; vm_compute; reflexivity.
Defined.

(** ** What a whole run does *)

Lemma norm_index_lt (len : nat) (i : Z) (j : nat) :
  norm_index len i = Some j -> (j < len)%nat.
Proof.
  unfold norm_index.
  destruct (Z.leb_spec 0 i).
  - destruct (Z.ltb_spec i (Z.of_nat len)); intros [= <-]. lia.
  - destruct (Z.leb_spec 0 (Z.of_nat len + i)); intros [= <-]. lia.
Qed.

Lemma mark_cell_updated (rows rows' : Rows) (c : Comment) (i : Z) :
  mark_cell rows c i = Ok rows' -> updated c rows rows'.
Proof.
  unfold mark_cell. intros H.
  destruct (c_pos c) as [m|]; [|discriminate].
  destruct (getitem rows m) as [lane|] eqn:Hlane; [|discriminate].
  cbn [Py.bind] in H.
  destruct (setitem lane i (Some c)) as [lane'|] eqn:Hset; [|discriminate].
  cbn [Py.bind] in H.
  destruct (getitem_inv _ _ _ Hlane) as (j & Hj & Hnth).
  pose proof (norm_index_lt _ _ _ Hj) as Hjlt.
  unfold setitem in H. rewrite Hj in H. injection H as <-.
  unfold setitem in Hset.
  destruct (norm_index (List.length lane) i) as [ji|] eqn:Hji; [|discriminate].
  injection Hset as <-.
  intros c' lane1 H1. unfold lane_of in *.
  destruct (c_pos c') as [m'|]; [|discriminate].
  rewrite getitem_set_nth by exact Hjlt.
  destruct (getitem_inv _ _ _ H1) as (j' & Hj' & Hnth').
  rewrite Hj'. destruct (Nat.eqb_spec j j') as [<-|Hne].
  - assert (lane1 = lane) by congruence. subst lane1.
    eexists. split; [reflexivity|]. split; [apply set_nth_length|].
    intros k. unfold cell_at.
    destruct (Nat.eq_dec ji (Z.to_nat k)) as [<-|Hk].
    + right. apply nth_error_set_nth_eq. eapply norm_index_lt; eauto.
    + left. apply nth_error_set_nth_neq. exact Hk.
  - exists lane1. auto.
Qed.

Lemma mark_loop_updated (c : Comment) (n : nat) :
  forall (rows rows' : Rows) (i : Z),
    mark_loop rows c n i = Ok rows' -> updated c rows rows'.
Proof.
  induction n as [|n IH]; intros rows rows' i H; simpl in H.
  - injection H as <-. apply updated_refl.
  - destruct (mark_cell rows c i) as [rows1|e] eqn:E.
    + eapply updated_trans; [eapply mark_cell_updated; eauto|eapply IH; eauto].
    + destruct e; try discriminate. injection H as <-. apply updated_refl.
Qed.

Lemma updated_kept (c : Comment) (rows rows' : Rows) :
  updated c rows rows' -> kept rows rows'.
Proof.
  intros H c' lane1 H1. destruct (H c' lane1 H1) as (lane1' & Hl & Hlen & Hc).
  exists lane1'. split; [exact Hl|]. split; [exact Hlen|].
  intros k o Hk. destruct (Hc k) as [E|E]; rewrite E; eauto.
Qed.

Lemma kept_refl (rows : Rows) : kept rows rows.
Proof. intros c' lane1 H. exists lane1. eauto. Qed.

Lemma kept_trans (r1 r2 r3 : Rows) : kept r1 r2 -> kept r2 r3 -> kept r1 r3.
Proof.
  intros H12 H23 c' lane1 H1.
  destruct (H12 c' lane1 H1) as (lane2 & H2 & Hl2 & Hc2).
  destruct (H23 c' lane2 H2) as (lane3 & H3 & Hl3 & Hc3).
  exists lane3. split; [exact H3|]. split; [congruence|].
  intros k o Hk. destruct (Hc2 k o Hk) as (o2 & Ho2). eauto.
Qed.

Section WholeRun.

Variable json_loads : string -> option json.
Variable py_str : json -> string.
Variable int_of_str : string -> option Z.
Variable float_of_str : string -> option Q.
Variable flash : Z -> Z -> Q -> Q -> Z -> Z -> RotArg.
Variables (width height bottomReserved : Z).
Variables (fontsize duration_marquee duration_still : Q).
Variable filters_regex : list (string -> bool).
Variable reduced : bool.

Let N := Z.to_nat (height - bottomReserved + 1).
Let step := process_comment json_loads py_str int_of_str float_of_str flash
              width height bottomReserved fontsize duration_marquee
              duration_still filters_regex reduced.
Let loop := process_loop json_loads py_str int_of_str float_of_str flash
              width height bottomReserved fontsize duration_marquee
              duration_still filters_regex reduced.
Let filtered (c : Comment) : bool :=
  existsb (fun filter_regex => filter_regex (c_comment c)) filters_regex.

(** Whether an iteration ends normally or not, it leaves every occupied
    cell occupied; what it writes is at most one entry, for its comment. *)
Lemma step_kept (rows rows' : Rows) (c : Comment) (r : result (list Out)) :
  step rows c = (rows', r) ->
  kept rows rows'
  /\ forall o, r = Ok o ->
       Forall (fun x => out_comment x = c) o /\ (List.length o <= 1)%nat.
Proof.
  unfold step, process_comment. intros H.
  assert (Hw : forall row forced,
             write_at width height bottomReserved fontsize duration_marquee
               duration_still rows c row forced = (rows', r) ->
             kept rows rows'
             /\ forall o, r = Ok o ->
                  Forall (fun x => out_comment x = c) o
                  /\ (List.length o <= 1)%nat).
  { intros row forced Hw. unfold write_at, MarkCommentRow in Hw.
    destruct (mark_loop rows c _ row) as [r1|] eqn:E.
    - injection Hw as <- <-.
      split; [eapply updated_kept, mark_loop_updated; eauto|].
      intros o Ho.
      destruct (WriteComment_call c row width height bottomReserved fontsize
                  duration_marquee duration_still) as [ev|];
        cbn [Py.bind] in Ho; [|discriminate].
      injection Ho as <-. split; [repeat constructor|simpl; lia].
    - injection Hw as <- <-. split; [apply kept_refl|]. discriminate. }
  assert (Hnil : kept rows rows
                 /\ forall o, @Ok (list Out) [] = Ok o ->
                      Forall (fun x => out_comment x = c) o
                      /\ (List.length o <= 1)%nat).
  { split; [apply kept_refl|]. intros o [= <-].
    split; [constructor|simpl; lia]. }
  assert (Hraise : forall e, kept rows rows
                 /\ forall o, @Raise (list Out) e = Ok o ->
                      Forall (fun x => out_comment x = c) o
                      /\ (List.length o <= 1)%nat).
  { intros e. split; [apply kept_refl|]. discriminate. }
  destruct (c_pos c) as [m|s].
  - destruct (existsb _ filters_regex).
    + injection H as <- <-. exact Hnil.
    + destruct (find_row _ _ _ _ _ rows c) as [[row|]|]; [eauto| |].
      * destruct reduced; cbn [negb] in H.
        -- injection H as <- <-. exact Hnil.
        -- destruct (FindAlternativeRow rows c height bottomReserved);
             [eauto|].
           injection H as <- <-. apply Hraise.
      * injection H as <- <-. apply Hraise.
  - destruct (String.eqb s "bilipos").
    + injection H as <- <-. split; [apply kept_refl|]. intros o Ho.
      destruct (WriteCommentBilibiliPositioned _ _ _ _ _ c width height);
        cbn [Py.bind] in Ho; [|discriminate].
      injection Ho as <-. split; [repeat constructor|simpl; lia].
    + injection H as <- <-. split; [apply kept_refl|]. intros o [= <-].
      split; [repeat constructor|simpl; lia].
Qed.

Lemma loop_kept (comments : list Comment) :
  forall (rows : Rows) (out : list Out),
    kept rows (run_rows (loop rows out comments)).
Proof.
  induction comments as [|c rest IH]; intros rows out; simpl.
  - apply kept_refl.
  - fold step. destruct (step rows c) as [rows' [o|e]] eqn:E.
    + eapply kept_trans; [apply (step_kept _ _ _ _ E)|apply IH].
    + simpl. apply (step_kept _ _ _ _ E).
Qed.

Lemma subseq_app_one {A : Type} (l l' : list A) (a : A) (o : list A) :
  subseq l l' -> Forall (fun x => x = a) o -> (List.length o <= 1)%nat ->
  subseq (o ++ l) (a :: l').
Proof.
  intros Hs Ho Hlen. destruct o as [|x [|y o]]; simpl in *; try lia.
  - apply subseq_skip. exact Hs.
  - inversion Ho; subst. apply subseq_keep. exact Hs.
Qed.

Lemma loop_order (comments : list Comment) :
  forall (rows : Rows) (out : list Out),
    exists written,
      run_out (loop rows out comments) = out ++ written
      /\ subseq (map out_comment written) comments.
Proof.
  induction comments as [|c rest IH]; intros rows out; simpl.
  - exists []. split; [symmetry; apply app_nil_r|constructor].
  - fold step. destruct (step rows c) as [rows' [o|e]] eqn:E.
    + destruct (IH rows' (out ++ o)) as (written & Hout & Hsub).
      exists (o ++ written). split; [rewrite Hout; symmetry; apply app_assoc|].
      rewrite map_app.
      destruct (step_kept _ _ _ _ E) as (_ & Hone).
      destruct (Hone o eq_refl) as (Ho & Hlen).
      apply subseq_app_one; [exact Hsub| |rewrite length_map; exact Hlen].
      apply Forall_map. exact Ho.
    + exists []. split; [symmetry; apply app_nil_r|].
      clear. induction (c :: rest); constructor; assumption.
Qed.

End WholeRun.

Lemma strict_loop_count
    (json_loads : string -> option json) (py_str : json -> string)
    (int_of_str : string -> option Z) (float_of_str : string -> option Q)
    (flash : Z -> Z -> Q -> Q -> Z -> Z -> RotArg)
    (width height bottomReserved : Z)
    (fontsize duration_marquee duration_still : Q)
    (filters_regex : list (string -> bool)) (comments : list Comment) :
  Forall is_lane comments ->
  Forall (timestamps_convert duration_marquee duration_still) comments ->
  forall (rows : Rows) (out : list Out),
    grid_shape (Z.to_nat (height - bottomReserved + 1)) rows ->
    run_exn (process_loop json_loads py_str int_of_str float_of_str flash
               width height bottomReserved fontsize duration_marquee
               duration_still filters_regex false rows out comments) = None
    /\ count_lines
         (run_out (process_loop json_loads py_str int_of_str float_of_str
                     flash width height bottomReserved fontsize
                     duration_marquee duration_still filters_regex false
                     rows out comments))
       = (count_lines out
          + List.length
              (filter (fun c => negb (existsb (fun f => f (c_comment c))
                                        filters_regex)) comments))%nat.
Proof.
  induction 1 as [|c rest (m & Hpos & Hm) Hrest IH];
    intros Hall rows out Hs; simpl.
  - split; [reflexivity|lia].
  - inversion Hall as [|? ? Hc Hcrest]; subst.
    destruct (lane_step json_loads py_str int_of_str float_of_str flash
                width height bottomReserved fontsize duration_marquee
                duration_still filters_regex false rows c m Hs Hpos Hm
                (fun _ => Hc))
      as (rows' & o & E & Hs' & _ & Hf & Hone).
    rewrite E. destruct (IH Hcrest rows' (out ++ o) Hs') as [Hn Hcount].
    split; [exact Hn|]. rewrite Hcount, count_lines_app.
    destruct (existsb (fun f => f (c_comment c)) filters_regex) eqn:Ef.
    + rewrite (Hf eq_refl). change (count_lines []) with O. simpl. lia.
    + rewrite (Hone eq_refl eq_refl). simpl. lia.
Qed.

(** X20: a strict run (reduction disabled) over lane comments whose
    timestamps can be converted ends normally and writes exactly one line
    for each comment that no filter matches. *)
Theorem strict_run_line_count
    (json_loads : string -> option json) (py_str : json -> string)
    (int_of_str : string -> option Z) (float_of_str : string -> option Q)
    (flash : Z -> Z -> Q -> Q -> Z -> Z -> RotArg)
    (width height bottomReserved : Z)
    (fontsize duration_marquee duration_still : Q)
    (filters_regex : list (string -> bool)) (comments : list Comment) :
  Forall is_lane comments ->
  Forall (timestamps_convert duration_marquee duration_still) comments ->
  let run :=
    ProcessComments json_loads py_str int_of_str float_of_str flash
      width height bottomReserved fontsize duration_marquee
      duration_still filters_regex false comments in
  run_exn run = None
  /\ count_lines (run_out run)
     = List.length
         (filter (fun c => negb (existsb (fun f => f (c_comment c))
                                   filters_regex)) comments).
Proof.
  intros H Hc run. unfold run, ProcessComments.
  apply (strict_loop_count json_loads py_str int_of_str float_of_str flash
           width height bottomReserved fontsize duration_marquee
           duration_still filters_regex comments H Hc
           (new_rows height bottomReserved) []).
  apply new_rows_shape.
Qed.

Lemma strict_run_line_count_witness :
  let A := demo_comment 0 1 1 1 10 in
  let B := mkComment 1 0 2 "spam" (PosInt 1) 16777215 25 1 10 in
  let C := demo_comment 2 3 1 1 10 in
  count_lines
    (run_out (ProcessComments demo_loads demo_str demo_int_of_str
                demo_float_of_str demo_flash 100 1 0 25 5 5
                [String.eqb "spam"] false [A; B; C])) = 2%nat.
Proof.
  intros A B C.
  destruct (strict_run_line_count demo_loads demo_str demo_int_of_str
              demo_float_of_str demo_flash 100 1 0 25 5 5
              [String.eqb "spam"] [A; B; C]) as [_ H].
  - repeat constructor; exists 1; split; (reflexivity || lia).
  - repeat constructor; vm_compute; reflexivity.
  - rewrite H. reflexivity.
Defined.

(** X22: the entries a run leaves behind follow the input order: their
    comments form a subsequence of the comment list, so lines are never
    re-sorted or duplicated. *)
Theorem ProcessComments_keeps_input_order
    (json_loads : string -> option json) (py_str : json -> string)
    (int_of_str : string -> option Z) (float_of_str : string -> option Q)
    (flash : Z -> Z -> Q -> Q -> Z -> Z -> RotArg)
    (width height bottomReserved : Z)
    (fontsize duration_marquee duration_still : Q)
    (filters_regex : list (string -> bool)) (reduced : bool)
    (comments : list Comment) :
  subseq
    (map out_comment
       (run_out (ProcessComments json_loads py_str int_of_str float_of_str
                   flash width height bottomReserved fontsize
                   duration_marquee duration_still filters_regex reduced
                   comments)))
    comments.
Proof.
  unfold ProcessComments.
  destruct (loop_order json_loads py_str int_of_str float_of_str flash width
              height bottomReserved fontsize duration_marquee duration_still
              filters_regex reduced comments
              (new_rows height bottomReserved) [])
    as (written & Hout & Hsub).
  rewrite Hout. exact Hsub.
Qed.

(** X23: lane occupancy is never rolled back: from any grid, every cell
    that is occupied before the loop over the comments is still occupied
    after it, and no lane changes its length. *)
Theorem process_loop_keeps_occupancy
    (json_loads : string -> option json) (py_str : json -> string)
    (int_of_str : string -> option Z) (float_of_str : string -> option Q)
    (flash : Z -> Z -> Q -> Q -> Z -> Z -> RotArg)
    (width height bottomReserved : Z)
    (fontsize duration_marquee duration_still : Q)
    (filters_regex : list (string -> bool)) (reduced : bool)
    (rows : Rows) (out : list Out) (comments : list Comment) :
  kept rows
    (run_rows (process_loop json_loads py_str int_of_str float_of_str flash
                 width height bottomReserved fontsize duration_marquee
                 duration_still filters_regex reduced rows out comments)).
Proof. apply loop_kept. Qed.

(** ** Greys under ConvertColor *)

Lemma grey_table :
  forallb (grey_unchanged 1280 576) (map Z.of_nat (seq 0 256)) = true
  /\ forallb (grey_unchanged 0 0) (map Z.of_nat (seq 0 256)) = true.
Proof. split; vm_compute; reflexivity. Qed.

Lemma ConvertColor_resolution (RGB width height : Z) :
  ConvertColor RGB width height
  = if (width <? 1280) && (height <? 576) then ConvertColor RGB 0 0
    else ConvertColor RGB 1280 576.
Proof.
  unfold ConvertColor.
  destruct (RGB =? 0); [destruct (_ && _); reflexivity|].
  destruct (RGB =? 16777215); [destruct (_ && _); reflexivity|].
  destruct ((width <? 1280) && (height <? 576)); reflexivity.
Qed.

(** X24: greys stay grey: for every level [v] from 0 to 255 and every
    resolution, the colour [v, v, v] is written as the same three bytes,
    whether the matrix or the channel swap is used. *)
Theorem ConvertColor_grey (v width height : Z) :
  0 <= v <= 255 ->
  ConvertColor (v * 65793) width height = hex6 v v v.
Proof.
  intros Hv. destruct grey_table as [Hm Hs].
  rewrite forallb_forall in Hm, Hs.
  assert (Hin : In v (map Z.of_nat (seq 0 256))).
  { apply in_map_iff. exists (Z.to_nat v). split; [lia|].
    apply in_seq. lia. }
  rewrite ConvertColor_resolution.
  destruct ((width <? 1280) && (height <? 576)).
  - apply String.eqb_eq. apply (Hs v Hin).
  - apply String.eqb_eq. apply (Hm v Hin).
Qed.

Lemma ConvertColor_grey_witness :
  ConvertColor 8421504 1920 1080 = "808080"%string.
Proof.
  change 8421504 with (128 * 65793).
  rewrite ConvertColor_grey by lia. reflexivity.
Defined.
